(** * SnapMap: the blob uploader and the registration screen

    A shallow embedding of the two modules of SnapMap: the upload
    utility [uploadToAzure] of the backend (an ES module of 28 lines
    around the [@azure/storage-blob] SDK) with the properties its
    specification states about it, and the registration screen of the
    mobile application ([RegisterUserScreen.tsx]), whose embedding and
    properties follow those of the uploader.

    [uploadToAzure] is an [async] JavaScript function: its body runs to a
    normal completion (the returned promise is fulfilled with the value)
    or to an abrupt one (the promise is rejected with the thrown value).
    It reads [process.env] and calls five operations of the SDK, two of
    which go to the storage service.  The embedding is a state and
    exception monad over a world made of the process environment, the
    state of the remote storage account and the log of what the body
    did.  The SDK is no part of the repository: it is an interface
    ([BlobSdk]) the development is parametric in, and [InMemoryAzure]
    is a small executable implementation of it used to run the code. *)

From Stdlib Require Import ZArith Ascii String List.
From Stdlib.Strings Require Import Byte.
From stdpp Require Import base strings gmap list.

Open Scope string_scope.
Open Scope list_scope.

(** ** JavaScript values, truthiness and error objects *)

Module Js.

(** The values the two parameters can be bound to.  A [Buffer] (or any
    typed array) is an object; numbers are kept to the integral ones
    and [NaN]. *)
Inductive Value : Type :=
| VUndefined
| VNull
| VBool (b : bool)
| VNumber (n : Z)
| VNaN
| VString (s : string)
| VBuffer (bytes : list byte).

(** ECMAScript [ToBoolean], which [!v] negates: [undefined], [null],
    [false], zero, [NaN] and the empty string are falsy; every object
    is truthy, a zero-length [Buffer] included. *)
Definition ToBoolean (v : Value) : bool :=
  match v with
  | VUndefined | VNull | VNaN => false
  | VBool b => b
  | VNumber n => negb (n =? 0)%Z
  | VString s => negb (String.eqb s "")
  | VBuffer _ => true
  end.

(** An error object: its class name, its message, and the source line
    of the expression that created it (the top frame of its [stack]). *)
Record ErrorObject : Type := mkError {
  err_name : string;
  err_message : string;
  err_line : nat
}.

(** Names bound by the module ([import], [const], [function]) and by
    the parameter list of [uploadToAzure]. *)
Definition lexically_bound : list string :=
  ["BlobServiceClient"; "CONTAINER_NAME"; "uploadToAzure"; "buffer"; "fileName"].

(** The error classes that exist as properties of the global object.
    Identifiers are case sensitive. *)
Definition native_error_constructors : list string :=
  ["Error"; "AggregateError"; "EvalError"; "RangeError";
   "ReferenceError"; "SyntaxError"; "TypeError"; "URIError"].

(** The value raised by the statement [throw new C(msg)] at [line],
    for an identifier [C] that is not lexically bound.  When [C] names
    an error class the object is built and thrown; when [C] is bound
    nowhere, evaluating the identifier raises a [ReferenceError] and
    the argument list is never reached. *)
Definition throw_new (C msg : string) (line : nat) : ErrorObject :=
  if bool_decide (C ∈ native_error_constructors)
  then mkError C msg line
  else mkError "ReferenceError" (C +:+ " is not defined") line.

(** [encodeURIComponent], on a string held as its UTF-8 bytes: the
    letters, the digits and [- _ . ! ~ * ' ( )] stay as they are, every
    other byte becomes [%XX] in upper-case hexadecimal. *)
Definition uri_unreserved (c : Ascii.ascii) : bool :=
  let n := Ascii.N_of_ascii c in
  ((65 <=? n) && (n <=? 90) || (97 <=? n) && (n <=? 122)
   || (48 <=? n) && (n <=? 57))%N
  || bool_decide (c ∈ list_ascii_of_string "-_.!~*'()").

Definition hex_digit (n : N) : Ascii.ascii :=
  Ascii.ascii_of_N (if (n <? 10)%N then 48 + n else 55 + n).

Definition percent_encoded (c : Ascii.ascii) : string :=
  let n := Ascii.N_of_ascii c in
  String "%"%char (String (hex_digit (n / 16)) (String (hex_digit (n mod 16)) "")).

Fixpoint encodeURIComponent (s : string) : string :=
  match s with
  | "" => ""
  | String c s' =>
      if uri_unreserved c then String c (encodeURIComponent s')
      else percent_encoded c +:+ encodeURIComponent s'
  end.

End Js.

Export Js.

(** ** The storage SDK, as the module uses it *)

(** The object literal passed to [createIfNotExists]. *)
Record ContainerCreateOptions : Type := { access : string }.

(** The part of [@azure/storage-blob] that the module touches.  The
    three client constructors work locally: they return a client or
    throw.  [createIfNotExists] and [uploadData] are requests to the
    storage account: they act on its state, and their promise is
    resolved ([None]) or rejected with an error.  [url] is a property
    of the blob client.  [containerExists] (the client's [exists()])
    and [download] (a GET of a URL) are what can be observed of a state
    of the account; the module calls neither. *)
Class BlobSdk : Type := {
  ServiceClient : Type;
  ContainerClient : Type;
  BlockBlobClient : Type;
  SdkError : Type;
  Service : Type;
  fromConnectionString : Value → SdkError + ServiceClient;
  getContainerClient : ServiceClient → string → SdkError + ContainerClient;
  createIfNotExists :
    ContainerClient → ContainerCreateOptions → Service → option SdkError * Service;
  getBlockBlobClient : ContainerClient → Value → SdkError + BlockBlobClient;
  uploadData : BlockBlobClient → Value → Service → option SdkError * Service;
  url : BlockBlobClient → string;
  containerExists : ContainerClient → Service → bool;
  download : Service → string → option Value
}.

(** ** The monad of the function body *)

Section Uploader.

Context {sdk : BlobSdk}.

(** What can be thrown inside the body: an error object made by the
    module's own code, or whatever the SDK threw or rejected with. *)
Inductive Thrown : Type :=
| ThrownError (e : ErrorObject)
| ThrownBySdk (e : SdkError).

Inductive Completion (A : Type) : Type :=
| Normal (a : A)
| Abrupt (t : Thrown).
Global Arguments Normal {A} a.
Global Arguments Abrupt {A} t.

(** The calls into the SDK, with receiver and arguments. *)
Inductive Call : Type :=
| FromConnectionString (conn : Value)
| GetContainerClient (sc : ServiceClient) (name : string)
| CreateIfNotExists (cc : ContainerClient) (opts : ContainerCreateOptions)
| GetBlockBlobClient (cc : ContainerClient) (name : Value)
| UploadData (bc : BlockBlobClient) (data : Value).

(** The log: reads of [process.env], and SDK calls with how they
    ended ([None]: returned or resolved; [Some e]: threw or rejected). *)
Inductive Event : Type :=
| EnvRead (var : string)
| SdkCall (c : Call) (failure : option SdkError).

Record World : Type := mkWorld {
  env : gmap string string;
  service : Service;
  trace : list Event
}.

Definition M (A : Type) : Type := World → Completion A * World.

Definition ret {A} (a : A) : M A := λ w, (Normal a, w).

Definition bind {A B} (m : M A) (k : A → M B) : M B :=
  λ w, match m w with
       | (Normal a, w') => k a w'
       | (Abrupt t, w') => (Abrupt t, w')
       end.

Definition throw {A} (t : Thrown) : M A := λ w, (Abrupt t, w).

Definition log (e : Event) : M unit :=
  λ w, (Normal tt, mkWorld (env w) (service w) (trace w ++ [e])).

(** [if (c) stmt] without [else]. *)
Definition when (c : bool) (m : M unit) : M unit := if c then m else ret tt.

End Uploader.

Declare Scope js_scope.
Delimit Scope js_scope with js.
Notation "'let*' x := m 'in' k" := (bind m (λ x, k))
  (at level 10, x name, m at level 100, k at level 200) : js_scope.
Notation "m ;;; k" := (bind m (λ _, k))
  (at level 100, k at level 200, right associativity) : js_scope.

Section UploaderBody.

Context {sdk : BlobSdk}.
Local Open Scope js_scope.

(** [process.env.var]: a string, or [undefined] when the variable is
    not set. *)
Definition process_env (var : string) : M Value :=
  λ w, (Normal (from_option VString VUndefined (env w !! var)),
        mkWorld (env w) (service w) (trace w ++ [EnvRead var])).

(** A call of a local SDK function: it is logged with its outcome and
    either returns or throws. *)
Definition call {A} (c : Call) (r : SdkError + A) : M A :=
  match r with
  | inr a => log (SdkCall c None) ;;; ret a
  | inl e => log (SdkCall c (Some e)) ;;; throw (ThrownBySdk e)
  end.

(** [await] of a request to the storage account: the request acts on
    the account, is logged with its outcome, and a rejection is
    rethrown at the [await].  One invocation is followed from start to
    end: what other tasks do to the account while this one is suspended
    is not modelled. *)
Definition await (c : Call) (request : Service → option SdkError * Service) : M unit :=
  λ w, let (failure, s') := request (service w) in
       let w' := mkWorld (env w) s' (trace w ++ [SdkCall c failure]) in
       match failure with
       | None => (Normal tt, w')
       | Some e => (Abrupt (ThrownBySdk e), w')
       end.

(** ** The module *)

Definition CONTAINER_NAME : string := "snapmap-blob".

Definition AZURE_STORAGE_CONNECTION : string := "AZURE_STORAGE_CONNECTION".

Definition uploadToAzure (buffer fileName : Value) : M string :=
  when (negb (ToBoolean buffer) || negb (ToBoolean fileName))
    (throw (ThrownError (throw_new "error" "Buffer and Filename are required" 7))) ;;;
  let* c := process_env AZURE_STORAGE_CONNECTION in
  when (negb (ToBoolean c))
    (throw (ThrownError (throw_new "error" "Connection string is required" 10))) ;;;
  let* conn := process_env AZURE_STORAGE_CONNECTION in
  let* blobServiceClient :=
    call (FromConnectionString conn) (fromConnectionString conn) in
  let* containerClient :=
    call (GetContainerClient blobServiceClient CONTAINER_NAME)
         (getContainerClient blobServiceClient CONTAINER_NAME) in
  let opts := {| access := "blob" |} in
  await (CreateIfNotExists containerClient opts)
        (createIfNotExists containerClient opts) ;;;
  let* blockBlobClient :=
    call (GetBlockBlobClient containerClient fileName)
         (getBlockBlobClient containerClient fileName) in
  await (UploadData blockBlobClient buffer) (uploadData blockBlobClient buffer) ;;;
  ret (url blockBlobClient).

End UploaderBody.

(** ** What an invocation did *)

Section Observations.

Context {sdk : BlobSdk}.

(** The events one invocation appends to the log. *)
Definition invocation_log (buffer fileName : Value) (w : World) : list Event :=
  drop (length (trace w)) (trace (uploadToAzure buffer fileName w).2).

(** The value of [process.env.AZURE_STORAGE_CONNECTION] in a world. *)
Definition connection_string (w : World) : Value :=
  from_option VString VUndefined (env w !! AZURE_STORAGE_CONNECTION).

Inductive CallKind : Type :=
| KFromConnectionString
| KGetContainerClient
| KCreateIfNotExists
| KGetBlockBlobClient
| KUploadData.

Global Instance CallKind_eq_dec : EqDecision CallKind.
Proof. solve_decision. Defined.

Definition kind (c : Call) : CallKind :=
  match c with
  | FromConnectionString _ => KFromConnectionString
  | GetContainerClient _ _ => KGetContainerClient
  | CreateIfNotExists _ _ => KCreateIfNotExists
  | GetBlockBlobClient _ _ => KGetBlockBlobClient
  | UploadData _ _ => KUploadData
  end.

(** The two calls that go to the storage account. *)
Definition is_request (c : Call) : bool :=
  match c with
  | CreateIfNotExists _ _ | UploadData _ _ => true
  | _ => false
  end.

(** The SDK calls of a log, in order, by kind. *)
Definition sdk_calls (log : list Event) : list CallKind :=
  omap (λ ev, match ev with SdkCall c _ => Some (kind c) | EnvRead _ => None end) log.

(** How often a log attempts a kind of call. *)
Definition attempts (k : CallKind) (log : list Event) : nat :=
  length (filter (λ k', k' = k) (sdk_calls log)).

(** The arguments the source passes to each call: the connection
    string read from the environment, the constant container name, the
    literal [{access: "blob"}], [fileName] and [buffer]. *)
Definition as_written (buffer fileName : Value) (w : World) (c : Call) : Prop :=
  match c with
  | FromConnectionString conn => conn = connection_string w
  | GetContainerClient _ name => name = "snapmap-blob"
  | CreateIfNotExists _ opts => opts = {| access := "blob" |}
  | GetBlockBlobClient _ name => name = fileName
  | UploadData _ data => data = buffer
  end.

(** The order the module's comments number the calls in. *)
Definition call_order : list CallKind :=
  [KFromConnectionString; KGetContainerClient; KCreateIfNotExists;
   KGetBlockBlobClient; KUploadData].

(** The URL of the blob client that the three client constructors
    build from a connection string, a container name and a blob name;
    [None] when one of them throws. *)
Definition blob_url_of (conn : Value) (container : string) (name : Value)
    : option string :=
  match fromConnectionString conn with
  | inl _ => None
  | inr sc =>
      match getContainerClient sc container with
      | inl _ => None
      | inr cc =>
          match getBlockBlobClient cc name with
          | inl _ => None
          | inr bc => Some (url bc)
          end
      end
  end.

(** The value a completion returns, if it is a normal one. *)
Definition returned {A} (c : Completion A) : option A :=
  match c with
  | Normal a => Some a
  | Abrupt _ => None
  end.

(** [u.includes(s)]: [s] starts at some position of [u]. *)
Fixpoint includes (u s : string) : bool :=
  String.prefix s u
  || match u with
     | "" => false
     | String _ u' => includes u' s
     end.

(** The SDK percent-encodes the names it puts into a URL, and the URL
    parser drops the segments [.] and [..].  A name without a slash
    comes through unchanged when it is made of letters, digits and
    [- _ . ! ~ * ( )] and is neither of these two segments. *)
Definition plain_char (c : Ascii.ascii) : bool :=
  uri_unreserved c && negb (Ascii.eqb c "'"%char).

Fixpoint all_plain (s : string) : bool :=
  match s with
  | "" => true
  | String c s' => plain_char c && all_plain s'
  end.

Definition needs_no_escaping (s : string) : bool :=
  all_plain s && negb (String.eqb s ".") && negb (String.eqb s "..").

(** Contracts of the SDK that some properties rest on. *)

(** A [createIfNotExists] that resolves leaves the container in the
    account. *)
Definition create_ensures_container : Prop :=
  ∀ cc opts s s',
    createIfNotExists cc opts s = (None, s') → containerExists cc s' = true.

(** [createIfNotExists] creates only what is absent: on an account
    that has the container, a call that resolves changes nothing. *)
Definition create_is_idempotent : Prop :=
  ∀ cc opts s s',
    containerExists cc s = true →
    createIfNotExists cc opts s = (None, s') → s' = s.

(** The URL of a blob client names its container and its blob, for
    names that need no escaping. *)
Definition url_names_container_and_plain_blob : Prop :=
  ∀ sc container cc name bc,
    getContainerClient sc container = inr cc →
    getBlockBlobClient cc (VString name) = inr bc →
    needs_no_escaping container = true →
    needs_no_escaping name = true →
    includes (url bc) container = true ∧ includes (url bc) name = true.

(** An upload that resolves leaves the data at the client's URL,
    whatever was there before. *)
Definition upload_overwrites : Prop :=
  ∀ bc data s s',
    uploadData bc data s = (None, s') → download s' (url bc) = Some data.

End Observations.

(** ** An executable storage account *)

Module InMemoryAzure.

Inductive RestError : Type :=
| InvalidConnectionString
| InvalidBlobName
| ContainerNotFound
| ServiceUnavailable.

Record Container : Type := { account : string; container_name : string }.

Record Blob : Type := { blob_container : Container; blob_name : string }.

(** The account: the access level of each container, the content at
    each blob URL, and the outages a test injects. *)
Record Account : Type := mkAccount {
  containers : gmap string string;
  blobs : gmap string Value;
  create_outage : option RestError;
  upload_outage : option RestError
}.

(** The URLs are built the way the SDK builds them.  A container
    client appends [encodeURIComponent] of the container name to the
    account URL.  A blob client appends the blob name with each segment
    between slashes passed through [encodeURIComponent] (the SDK's
    [EscapePath]), and its constructor then turns an apostrophe into
    [%27] ([escapeURLPath]).  That the URL parser drops [.] and [..]
    segments is left out. *)
Definition container_url (c : Container) : string :=
  account c +:+ "/" +:+ encodeURIComponent (container_name c).

Fixpoint escape_blob_name (blobName : string) : string :=
  match blobName with
  | "" => ""
  | String c s' =>
      if Ascii.eqb c "/"%char || plain_char c then String c (escape_blob_name s')
      else percent_encoded c +:+ escape_blob_name s'
  end.

Definition blob_url (b : Blob) : string :=
  container_url (blob_container b) +:+ "/" +:+ escape_blob_name (blob_name b).

Definition from_connection_string (conn : Value) : RestError + string :=
  match conn with
  | VString s => if String.eqb s "" then inl InvalidConnectionString else inr s
  | _ => inl InvalidConnectionString
  end.

Definition get_container_client (sc : string) (name : string) : RestError + Container :=
  inr {| account := sc; container_name := name |}.

Definition create_if_not_exists (c : Container) (opts : ContainerCreateOptions)
    (a : Account) : option RestError * Account :=
  match create_outage a with
  | Some e => (Some e, a)
  | None =>
      match containers a !! container_url c with
      | Some _ => (None, a)
      | None => (None, mkAccount (<[container_url c := access opts]> (containers a))
                                 (blobs a) (create_outage a) (upload_outage a))
      end
  end.

Definition get_block_blob_client (c : Container) (name : Value) : RestError + Blob :=
  match name with
  | VString s => inr {| blob_container := c; blob_name := s |}
  | _ => inl InvalidBlobName
  end.

Definition upload_data (b : Blob) (data : Value) (a : Account)
    : option RestError * Account :=
  match upload_outage a with
  | Some e => (Some e, a)
  | None =>
      match containers a !! container_url (blob_container b) with
      | None => (Some ContainerNotFound, a)
      | Some _ => (None, mkAccount (containers a) (<[blob_url b := data]> (blobs a))
                                   (create_outage a) (upload_outage a))
      end
  end.

#[export] Instance in_memory_sdk : BlobSdk := {|
  ServiceClient := string;
  ContainerClient := Container;
  BlockBlobClient := Blob;
  SdkError := RestError;
  Service := Account;
  fromConnectionString := from_connection_string;
  getContainerClient := get_container_client;
  createIfNotExists := create_if_not_exists;
  getBlockBlobClient := get_block_blob_client;
  uploadData := upload_data;
  url := blob_url;
  containerExists := λ c a, bool_decide (is_Some (containers a !! container_url c));
  download := λ a u, blobs a !! u
|}.

(** Sample data. *)
Definition endpoint : string := "https://snapmap.blob.core.windows.net".

Definition empty_account : Account := mkAccount ∅ ∅ None None.

Definition configured (a : Account) : World :=
  mkWorld {[ AZURE_STORAGE_CONNECTION := endpoint ]} a [].

Definition unconfigured (a : Account) : World := mkWorld ∅ a [].

Definition photo : Value := VBuffer [x89; x50; x4e; x47].

Definition other_photo : Value := VBuffer [xff; xd8].

Definition photo_name : Value := VString "photo.png".

Definition photo_url : string :=
  "https://snapmap.blob.core.windows.net/snapmap-blob/photo.png".



Definition w0 : World := configured empty_account.

(** The world once the first photo is uploaded. *)
Definition w1 : World := (uploadToAzure photo photo_name w0).2.

(** The world once another photo is uploaded under the same name. *)
Definition w2 : World := (uploadToAzure other_photo photo_name w1).2.

(** A world whose account rejects uploads. *)
Definition w_upload_down : World :=
  configured (mkAccount ∅ ∅ None (Some ServiceUnavailable)).

End InMemoryAzure.

(** ** The registration screen ([RegisterUserScreen.tsx]) *)

(** The component keeps a form in React state, validates it, and posts
    it to the signup endpoint.  Handlers are closures over the state of
    the render they belong to (the snapshot); they ask React for state
    updates and call the outside world (Clerk, [fetch], [Alert]).  A
    handler is embedded as a function of its snapshot that yields the
    list of what it did, in order. *)

Module RegisterUserScreen.

(** *** Text *)

(** A JavaScript string is a sequence of UTF-16 code units.  What the
    user types is kept as such, since [trim] and [\s] classify code
    units well beyond ASCII.  Property names and the literals of the
    source are written as Rocq strings. *)
Definition text : Type := list N.

Definition text_of (s : string) : text := Ascii.N_of_ascii <$> list_ascii_of_string s.
Global Arguments text_of : simpl never.

(** ECMAScript white space and line terminators: what [trim] strips
    and what [\s] matches. *)
Definition is_whitespace (c : N) : bool :=
  ((9 <=? c) && (c <=? 13)
   || (c =? 32) || (c =? 160) || (c =? 0x1680)
   || (0x2000 <=? c) && (c <=? 0x200a)
   || (c =? 0x2028) || (c =? 0x2029) || (c =? 0x202f) || (c =? 0x205f)
   || (c =? 0x3000) || (c =? 0xfeff))%N.

Fixpoint trimStart (s : text) : text :=
  match s with
  | c :: s' => if is_whitespace c then trimStart s' else s
  | [] => []
  end.

Definition trimEnd (s : text) : text := reverse (trimStart (reverse s)).

Definition trim (s : text) : text := trimEnd (trimStart s).

(** Truthiness of a string, and [a || b] on strings. *)
Definition nonempty (s : text) : bool :=
  match s with
  | [] => false
  | _ :: _ => true
  end.

Definition or_else (a b : text) : text := if nonempty a then a else b.

(** [s || undefined]. *)
Definition or_undefined (s : text) : option text := if nonempty s then Some s else None.

(** Decimal digits of a number, as a template literal prints an
    integer. *)
Fixpoint digits (d : Decimal.uint) : text :=
  (match d with
   | Decimal.Nil => []
   | Decimal.D0 d => 48 :: digits d
   | Decimal.D1 d => 49 :: digits d
   | Decimal.D2 d => 50 :: digits d
   | Decimal.D3 d => 51 :: digits d
   | Decimal.D4 d => 52 :: digits d
   | Decimal.D5 d => 53 :: digits d
   | Decimal.D6 d => 54 :: digits d
   | Decimal.D7 d => 55 :: digits d
   | Decimal.D8 d => 56 :: digits d
   | Decimal.D9 d => 57 :: digits d
   end)%N.

Definition number_text (n : N) : text := digits (N.to_uint n).

(** *** The email pattern *)

(** The pattern [/^[^\s@]+@[^\s@]+\.[^\s@]+$/] consists of character
    classes, each taken once or repeated with [+], between [^] and [$]:
    [test] holds when the whole string can be split along the tokens. *)
Inductive Token : Type :=
| Once (cls : N → bool)
| OneOrMore (cls : N → bool).

Fixpoint full_match (s : text) (re : list Token) {struct s} : bool :=
  match s, re with
  | [], [] => true
  | c :: s', Once cls :: re' => cls c && full_match s' re'
  | c :: s', OneOrMore cls :: re' =>
      cls c && (full_match s' re' || full_match s' (OneOrMore cls :: re'))
  | _, _ => false
  end.

(** [[^\s@]], [@] and [\.]. *)
Definition not_space_nor_at (c : N) : bool := negb (is_whitespace c || (c =? 64)%N).

Definition at_sign (c : N) : bool := (c =? 64)%N.

Definition full_stop (c : N) : bool := (c =? 46)%N.

Definition email_pattern : list Token :=
  [OneOrMore not_space_nor_at; Once at_sign; OneOrMore not_space_nor_at;
   Once full_stop; OneOrMore not_space_nor_at].

Definition email_test (s : text) : bool := full_match s email_pattern.

(** *** Constants of the module *)

Definition GENDER_OPTIONS : list text :=
  [text_of "male"; text_of "female"; text_of "others"].

Definition YEAR_OPTIONS : list text :=
  [text_of "1st"; text_of "2nd"; text_of "3rd"; text_of "4th"; text_of "5th";
   text_of "Graduate"; text_of "Other"].

(** [__DEV__] and [Platform.OS] select the address of the backend. *)
Definition API_BASE_URL (dev : bool) (os : text) : text :=
  if dev
  then if bool_decide (os = text_of "android")
       then text_of "http://10.0.2.2:5000"
       else text_of "http://192.168.29.11:5000"
  else text_of "https://your-production-url.com".

(** *** React state *)

Record State : Type := mkState {
  formData : gmap string text;
  errors : gmap string text;
  isSubmitting : bool;
  genderDropdownVisible : bool;
  yearDropdownVisible : bool
}.

(** The requests a handler makes to React.  [AssignField] stands for
    [setFormData(prev => ({...prev, [field]: value}))] and [DeleteError]
    for [setErrors(prev => { copy; delete copy[field]; })]; the others
    set a value. *)
Inductive Update : Type :=
| AssignField (field : string) (value : text)
| SetErrors (newErrors : gmap string text)
| DeleteError (field : string)
| SetIsSubmitting (b : bool)
| SetGenderDropdownVisible (b : bool)
| SetYearDropdownVisible (b : bool).

Definition apply_update (s : State) (u : Update) : State :=
  match u with
  | AssignField field value =>
      mkState (<[field := value]> (formData s)) (errors s) (isSubmitting s)
        (genderDropdownVisible s) (yearDropdownVisible s)
  | SetErrors newErrors =>
      mkState (formData s) newErrors (isSubmitting s)
        (genderDropdownVisible s) (yearDropdownVisible s)
  | DeleteError field =>
      mkState (formData s) (delete field (errors s)) (isSubmitting s)
        (genderDropdownVisible s) (yearDropdownVisible s)
  | SetIsSubmitting b =>
      mkState (formData s) (errors s) b (genderDropdownVisible s) (yearDropdownVisible s)
  | SetGenderDropdownVisible b =>
      mkState (formData s) (errors s) (isSubmitting s) b (yearDropdownVisible s)
  | SetYearDropdownVisible b =>
      mkState (formData s) (errors s) (isSubmitting s) (genderDropdownVisible s) b
  end.

(** React applies the queued updates in order. *)
Definition apply_updates (us : list Update) (s : State) : State :=
  foldl apply_update s us.

(** The user object of Clerk, as far as the component reads it. *)
Record ClerkUser : Type := {
  fullName : option text;
  firstName : option text;
  primaryEmailAddress : option text;
  primaryPhoneNumber : option text
}.

(** [a?.b || ...]: a missing member is as good as an empty one. *)
Definition member (m : ClerkUser → option text) (user : option ClerkUser) : text :=
  default [] (user ≫= m).

Definition initial_formData (user : option ClerkUser) : gmap string text :=
  <["name" := or_else (member fullName user) (or_else (member firstName user) [])]>
  (<["email" := or_else (member primaryEmailAddress user) []]>
  (<["collegeName" := []]>
  (<["phoneNumber" := or_else (member primaryPhoneNumber user) []]>
  (<["year" := []]>
  (<["gender" := []]> ∅))))).

Definition initial_state (user : option ClerkUser) : State :=
  mkState (initial_formData user) ∅ false false false.

(** *** What a handler does *)

(** A thrown value: a [TypeError] of the engine for reading a member
    of [undefined] or [null], or an [Error] object with its message.
    Whatever the libraries throw is taken to be an [Error] object. *)
Inductive Thrown : Type :=
| TypeError (member_read : string)
| JsError (message : text).

(** The object handed to [JSON.stringify]: members that are
    [undefined] are left out of the body. *)
Record Payload : Type := mkPayload {
  p_name : text;
  p_email : text;
  p_collegeName : text;
  p_phoneNumber : option text;
  p_year : option text;
  p_gender : option text
}.

Record Request : Type := mkRequest {
  req_url : text;
  req_method : text;
  req_content_type : text;
  req_authorization : text;
  req_body : Payload
}.

(** What a handler does, in order: requests to React, alerts (with
    the screen the OK button leads to, if any), console lines (of which
    the label is kept) and the calls to Clerk and to the network.  A
    request carries the object handed to [JSON.stringify] in place of
    the text of its body. *)
Inductive Event : Type :=
| SetState (u : Update)
| Alert (title message : text) (onOk : option text)
| ConsoleLog (label : text)
| ConsoleError (label : text)
| GetToken (template : option text)
| Fetch (request : Request)
| ResponseText
| Reload.

(** A computation: the events so far and how it ended. *)
Definition Prog (A : Type) : Type := list Event * (Thrown + A).

Definition pret {A} (a : A) : Prog A := ([], inr a).

Definition pbind {A B} (m : Prog A) (k : A → Prog B) : Prog B :=
  match m with
  | (log, inr a) => let (log', r) := k a in (log ++ log', r)
  | (log, inl e) => (log, inl e)
  end.

Definition pthrow {A} (e : Thrown) : Prog A := ([], inl e).

Definition emit (ev : Event) : Prog unit := ([ev], inr tt).

(** [try { m } catch (e) { handler e }]. *)
Definition try_catch {A} (m : Prog A) (handler : Thrown → Prog A) : Prog A :=
  match m with
  | (log, inr a) => (log, inr a)
  | (log, inl e) => let (log', r) := handler e in (log ++ log', r)
  end.

(** [try { m } finally { cleanup }]: the cleanup runs however [m]
    ended, and [m]'s way of ending stands unless the cleanup throws. *)
Definition try_finally {A} (m : Prog A) (cleanup : Prog unit) : Prog A :=
  match m, cleanup with
  | (log, r), (log', inr _) => (log ++ log', r)
  | (log, _), (log', inl e) => (log ++ log', inl e)
  end.

(** A computation of the engine that returns or throws. *)
Definition lift {A} (answer : Thrown + A) : Prog A :=
  match answer with
  | inr a => pret a
  | inl e => pthrow e
  end.

(** An external call: it is logged, then returns or throws. *)
Definition external {A} (ev : Event) (answer : Thrown + A) : Prog A :=
  match answer with
  | inr a => ([ev], inr a)
  | inl e => ([ev], inl e)
  end.

(** The answer to [fetch]: [status], [ok], and what [text()] gives. *)
Record Response : Type := mkResponse {
  status : N;
  ok : bool;
  response_text : Thrown + text
}.

(** What the component does not define: the build flags, the engine,
    Clerk and the network.  [data_message j] is the reading of
    [data.message] followed by [|| ...] and [new Error(...)]: it throws
    when [j] is [null], is [None] when the member is missing or falsy,
    and otherwise gives the member as the error will show it. *)
Class Outside : Type := {
  dev : bool;
  platform_os : text;
  type_error_message : string → text;
  getToken : option text → Thrown + option text;
  fetch : Request → Thrown + Response;
  Json : Type;
  JSON_parse : text → Thrown + Json;
  data_message : Json → Thrown + option text;
  user_reload : Thrown + unit
}.

Declare Scope prog_scope.
Delimit Scope prog_scope with prog.
Notation "'let*' x := m 'in' k" := (pbind m (λ x, k))
  (at level 10, x name, m at level 100, k at level 200) : prog_scope.
Notation "m ;;; k" := (pbind m (λ _, k))
  (at level 100, k at level 200, right associativity) : prog_scope.

Section Handlers.

Context {outside : Outside}.
Local Open Scope prog_scope.

(** [error.message]. *)
Definition message_of (e : Thrown) : text :=
  match e with
  | TypeError member_read => type_error_message member_read
  | JsError message => message
  end.

(** [formData.field.trim()] and the like start by reading the field;
    calling a method on [undefined] throws. *)
Definition read_field (fd : gmap string text) (field : string) : Prog text :=
  match fd !! field with
  | Some value => pret value
  | None => pthrow (TypeError field)
  end.

Definition validateForm (s : State) : Prog bool :=
  let newErrors : gmap string text := ∅ in
  let* name := read_field (formData s) "name" in
  let newErrors :=
    if negb (nonempty (trim name))
    then <["name" := text_of "Name is required"]> newErrors
    else newErrors in
  let* email := read_field (formData s) "email" in
  let newErrors :=
    if negb (nonempty (trim email))
    then <["email" := text_of "Email is required"]> newErrors
    else if negb (email_test email)
         then <["email" := text_of "Please enter a valid email"]> newErrors
         else newErrors in
  let* collegeName := read_field (formData s) "collegeName" in
  let newErrors :=
    if negb (nonempty (trim collegeName))
    then <["collegeName" := text_of "College name is required"]> newErrors
    else newErrors in
  emit (SetState (SetErrors newErrors)) ;;;
  pret (bool_decide (size newErrors = 0)).

(** The object literal of the request body (and of the log line before
    it). *)
Definition payload (fd : gmap string text) : Prog Payload :=
  let* name := read_field fd "name" in
  let* email := read_field fd "email" in
  let* collegeName := read_field fd "collegeName" in
  let* phoneNumber := read_field fd "phoneNumber" in
  let* year := read_field fd "year" in
  let* gender := read_field fd "gender" in
  pret (mkPayload (trim name) (trim email) (trim collegeName)
          (or_undefined (trim phoneNumber)) (or_undefined (trim year))
          (or_undefined (trim gender))).

Definition signup_url : text := API_BASE_URL dev platform_os ++ text_of "/api/v1/auth/signup".

(** Truthiness of [string | null]. *)
Definition has_token (token : option text) : bool :=
  match token with
  | Some t => nonempty t
  | None => false
  end.

Definition alert (title message : string) : Prog unit :=
  emit (Alert (text_of title) (text_of message) None).

(** What the response is parsed to: the result of [JSON.parse], or one
    of the two object literals of the source. *)
Inductive Data : Type :=
| Parsed (j : Json)
| EmptyObject
| ParseFailure.

Definition read_message (data : Data) : Prog (option text) :=
  match data with
  | Parsed j => lift (data_message j)
  | EmptyObject => pret None
  | ParseFailure => pret (Some (text_of "Failed to parse server response"))
  end.

(** The error message a response without [ok] leads to: the [message]
    of the body if it has a truthy one, the status line if the body is
    empty or has none, and the parse failure text if the body cannot be
    read or parsed. *)
Definition refusal_message (response : Response) : text :=
  let status_line :=
    text_of "Registration failed with status " ++ number_text (status response) in
  match response_text response with
  | inl _ => text_of "Failed to parse server response"
  | inr [] => status_line
  | inr body =>
      match JSON_parse body with
      | inl _ => text_of "Failed to parse server response"
      | inr j =>
          match data_message j with
          | inl e => message_of e
          | inr None => status_line
          | inr (Some message) => message
          end
      end
  end.

Definition handleSubmit (s : State) (user : option ClerkUser) : Prog unit :=
  let* valid := validateForm s in
  if negb valid
  then alert "Validation Error" "Please fill in all required fields correctly"
  else if isSubmitting s then pret tt
  else
    emit (SetState (SetIsSubmitting true)) ;;;
    try_finally
      (try_catch
         (match user with
          | None =>
              alert "Error" "User not authenticated. Please sign in again." ;;;
              emit (SetState (SetIsSubmitting false))
          | Some _ =>
              let* token := external (GetToken None) (getToken None) in
              let* token :=
                if negb (has_token token)
                then try_catch
                       (external (GetToken (Some (text_of "default")))
                          (getToken (Some (text_of "default"))))
                       (λ templateError,
                          emit (ConsoleLog
                                  (text_of "Template token failed, trying without template")) ;;;
                          pret token)
                else pret token in
              emit (ConsoleLog (text_of "Token retrieved:")) ;;;
              emit (ConsoleLog (text_of "Token length:")) ;;;
              if negb (has_token token)
              then
                alert "Error" "Authentication token not available. Please sign in again." ;;;
                emit (SetState (SetIsSubmitting false))
              else
                emit (ConsoleLog (text_of "Making API request to:")) ;;;
                let* logged := payload (formData s) in
                emit (ConsoleLog (text_of "Request payload:")) ;;;
                let* body := payload (formData s) in
                let request :=
                  mkRequest signup_url (text_of "POST") (text_of "application/json")
                    (text_of "Bearer " ++ default [] token) body in
                let* response := external (Fetch request) (fetch request) in
                emit (ConsoleLog (text_of "Response status:")) ;;;
                let* data :=
                  try_catch
                    (let* text := external ResponseText (response_text response) in
                     if nonempty text
                     then let* j := lift (JSON_parse text) in pret (Parsed j)
                     else pret EmptyObject)
                    (λ parseError,
                       emit (ConsoleError (text_of "Failed to parse response:")) ;;;
                       pret ParseFailure) in
                emit (ConsoleLog (text_of "Response data:")) ;;;
                (if negb (ok response)
                 then
                   let* message := read_message data in
                   let errorMessage :=
                     default (text_of "Registration failed with status "
                              ++ number_text (status response)) message in
                   emit (ConsoleError (text_of "API Error:")) ;;;
                   pthrow (JsError errorMessage)
                 else pret tt) ;;;
                try_catch
                  (external Reload user_reload)
                  (λ err, emit (ConsoleError (text_of "Failed to reload user:"))) ;;;
                emit (Alert (text_of "Success")
                        (text_of "Registration completed successfully!")
                        (Some (text_of "HomeScreen")))
          end)
         (λ error,
            emit (ConsoleError (text_of "Registration error:")) ;;;
            emit (Alert (text_of "Registration Failed")
                    (or_else (message_of error)
                       (text_of "An error occurred during registration. Please try again."))
                    None)))
      (emit (SetState (SetIsSubmitting false))).

(** [updateField], called in a render whose state is [s]: the
    assignment is always asked for, the removal of the field's error
    only when the snapshot shows one. *)
Definition updateField (s : State) (field : string) (value : text) : list Update :=
  AssignField field value
  :: match errors s !! field with
     | Some message => if nonempty message then [DeleteError field] else []
     | None => []
     end.

(** The callbacks wired in the JSX. *)
Inductive Action : Type :=
| ChangeName (value : text)
| ChangeEmail (value : text)
| ChangeCollegeName (value : text)
| ChangePhoneNumber (value : text)
| PressGender
| DismissGender
| PickGender (option : text)
| PressYear
| DismissYear
| PickYear (option : text).

Definition on_action (s : State) (a : Action) : list Update :=
  match a with
  | ChangeName value => updateField s "name" value
  | ChangeEmail value => updateField s "email" value
  | ChangeCollegeName value => updateField s "collegeName" value
  | ChangePhoneNumber value => updateField s "phoneNumber" value
  | PressGender => if negb (isSubmitting s) then [SetGenderDropdownVisible true] else []
  | DismissGender => [SetGenderDropdownVisible false]
  | PickGender option => updateField s "gender" option ++ [SetGenderDropdownVisible false]
  | PressYear => if negb (isSubmitting s) then [SetYearDropdownVisible true] else []
  | DismissYear => [SetYearDropdownVisible false]
  | PickYear option => updateField s "year" option ++ [SetYearDropdownVisible false]
  end.

(** An option can be picked only if the dropdown lists it. *)
Definition offered (a : Action) : Prop :=
  match a with
  | PickGender option => option ∈ GENDER_OPTIONS
  | PickYear option => option ∈ YEAR_OPTIONS
  | _ => True
  end.

(** The state updates among the events of a handler. *)
Definition state_updates (log : list Event) : list Update :=
  omap (λ ev, match ev with SetState u => Some u | _ => None end) log.

(** The alerts shown, by title and message. *)
Definition alerts (log : list Event) : list (text * text) :=
  omap (λ ev, match ev with Alert title message _ => Some (title, message) | _ => None end)
    log.

(** The calls that leave the component: Clerk and the network. *)
Definition is_external (ev : Event) : bool :=
  match ev with
  | GetToken _ | Fetch _ | ResponseText | Reload => true
  | _ => false
  end.

Definition fetches (log : list Event) : list Request :=
  omap (λ ev, match ev with Fetch request => Some request | _ => None end) log.

(** The fields [validateForm] looks at and the messages it can give. *)
Definition required_fields : list string := ["name"; "email"; "collegeName"].

Definition validation_messages : list text :=
  [text_of "Name is required"; text_of "Email is required";
   text_of "Please enter a valid email"; text_of "College name is required"].

(** The six members of the form. *)
Definition form_fields : list string :=
  ["name"; "email"; "collegeName"; "phoneNumber"; "year"; "gender"].

Definition complete (fd : gmap string text) : Prop :=
  ∀ field, field ∈ form_fields → is_Some (fd !! field).

(** Errors as [validateForm] gives them: for required fields only,
    with one of the four messages. *)
Definition plain_errors (m : gmap string text) : Prop :=
  ∀ field message,
    m !! field = Some message →
    field ∈ required_fields ∧ message ∈ validation_messages.

(** The updates the screen asks for: an assignment goes to one of the
    six fields, and to [gender] or [year] only with a listed option. *)
Definition expected_update (u : Update) : Prop :=
  match u with
  | AssignField field value =>
      field ∈ ["name"; "email"; "collegeName"; "phoneNumber"]
      ∨ field = "gender" ∧ value ∈ GENDER_OPTIONS
      ∨ field = "year" ∧ value ∈ YEAR_OPTIONS
  | SetErrors newErrors => plain_errors newErrors
  | _ => True
  end.

Definition well_formed (s : State) : Prop :=
  dom (formData s) = list_to_set form_fields
  ∧ (∃ gender, formData s !! "gender" = Some gender ∧ gender ∈ [] :: GENDER_OPTIONS)
  ∧ (∃ year, formData s !! "year" = Some year ∧ year ∈ [] :: YEAR_OPTIONS)
  ∧ plain_errors (errors s).

End Handlers.

(** The states the screen can be in.  It starts from the initial
    state of some user.  A callback of the JSX belongs to a render that
    showed some earlier state (its snapshot) and its updates are applied
    together to the current state.  [handleSubmit] is asynchronous: each
    of its updates reaches React on its own, while other callbacks may
    run in between. *)
Inductive reachable : State → Prop :=
| reach_initial user : reachable (initial_state user)
| reach_action snapshot s a :
    reachable snapshot → reachable s → offered a →
    reachable (apply_updates (on_action snapshot a) s)
| reach_submit (outside : Outside) snapshot user s u :
    reachable snapshot → reachable s →
    u ∈ state_updates (handleSubmit snapshot user).1 →
    reachable (apply_update s u).

End RegisterUserScreen.

(** ** An executable outside world for the registration screen *)

Module SignupSample.

Import RegisterUserScreen.

(** What the sample server's bodies parse to. *)
Inductive Body : Type :=
| WithMessage (message : text)
| Bare
| Null.

Definition quoted (s : string) : text := 34%N :: text_of s ++ [34%N].

(** The body [{"message":"Email already registered"}]. *)
Definition conflict_body : text :=
  text_of "{" ++ quoted "message" ++ text_of ":" ++ quoted "Email already registered"
  ++ text_of "}".

Definition parse (body : text) : Thrown + Body :=
  if bool_decide (body = text_of "{}") then inr Bare
  else if bool_decide (body = text_of "null") then inr Null
  else if bool_decide (body = conflict_body)
       then inr (WithMessage (text_of "Email already registered"))
       else inl (JsError (text_of "JSON Parse error: Unexpected token")).

Definition message_member (j : Body) : Thrown + option text :=
  match j with
  | WithMessage message => inr (or_undefined message)
  | Bare => inr None
  | Null => inl (TypeError "message")
  end.

(** A development build on Android, with the answers of Clerk and of
    the server as parameters. *)
Definition world (plain template : Thrown + option text) (answer : Thrown + Response)
    : Outside := {|
  dev := true;
  platform_os := text_of "android";
  type_error_message := λ member, text_of "Cannot read property of null: " ++ text_of member;
  getToken := λ asked, match asked with None => plain | Some _ => template end;
  fetch := λ _, answer;
  Json := Body;
  JSON_parse := parse;
  data_message := message_member;
  user_reload := inr tt
|}.

Definition jwt : text := text_of "eyJhbGciOi.e30.c2ln".

Definition created : Response := mkResponse 201 true (inr (text_of "{}")).

Definition conflict : Response := mkResponse 409 false (inr conflict_body).

(** The server accepts; the server refuses; Clerk has no token and its
    template request fails; Clerk itself fails. *)
Definition accepting : Outside := world (inr (Some jwt)) (inr None) (inr created).

Definition refusing : Outside := world (inr (Some jwt)) (inr None) (inr conflict).

Definition tokenless : Outside :=
  world (inr None) (inl (JsError (text_of "No JWT template exists"))) (inr created).

Definition clerk_down : Outside :=
  world (inl (JsError (text_of "Network request failed"))) (inr None) (inr created).

Definition ada : ClerkUser := {|
  fullName := Some (text_of "Ada Lovelace");
  firstName := Some (text_of "Ada");
  primaryEmailAddress := Some (text_of "ada@example.org");
  primaryPhoneNumber := None
|}.

(** The form as the screen opens for Ada, then with a college typed
    in, then with a space typed before the email. *)
Definition opened : State := initial_state (Some ada).

Definition filled : State :=
  apply_updates (on_action opened (ChangeCollegeName (text_of "Trinity College"))) opened.

Definition padded : State :=
  apply_updates (on_action filled (ChangeEmail (text_of " ada@example.org"))) filled.

(** The form as it opened, after a submission: the college is asked
    for. *)
Definition unfinished : State :=
  apply_update opened
    (SetErrors {[ "collegeName" := text_of "College name is required" ]}).

(** The request a submission of [filled] sends. *)
Definition signup_request : Request :=
  mkRequest (text_of "http://10.0.2.2:5000/api/v1/auth/signup") (text_of "POST")
    (text_of "application/json") (text_of "Bearer eyJhbGciOi.e30.c2ln")
    (mkPayload (text_of "Ada Lovelace") (text_of "ada@example.org")
       (text_of "Trinity College") None None None).

End SignupSample.

(** Further worlds of the in-memory account. *)
Module UploadSample.

Import InMemoryAzure.

(** A world whose account rejects the creation of containers. *)
Definition w_create_down : World :=
  configured (mkAccount ∅ ∅ (Some ServiceUnavailable) None).

(** A file name that is truthy but no string. *)
Definition numeric_name : Value := VNumber 5.

End UploadSample.


(** ** Facts about strings *)

Section StringFacts.

Lemma string_app_assoc (s1 s2 s3 : string) :
  (s1 +:+ s2) +:+ s3 = s1 +:+ s2 +:+ s3.
Proof.
  induction s1 as [|a s1 IH]; [reflexivity |].
  change (String a ((s1 +:+ s2) +:+ s3) = String a (s1 +:+ s2 +:+ s3)).
  by rewrite IH.
Qed.

Lemma string_app_nil_r (s : string) : s +:+ "" = s.
Proof.
  induction s as [|a s IH]; [reflexivity |].
  change (String a (s +:+ "") = String a s). by rewrite IH.
Qed.

Lemma prefix_app (s post : string) : String.prefix s (s +:+ post) = true.
Proof.
  induction s as [|a s IH]; [by destruct post |].
  change (String.prefix (String a s) (String a (s +:+ post)) = true).
  simpl. by destruct (Ascii.ascii_dec a a).
Qed.

Lemma includes_prefix (u s : string) :
  String.prefix s u = true → includes u s = true.
Proof. destruct u; simpl; by intros ->. Qed.

Lemma includes_app (pre s post : string) :
  includes (pre +:+ s +:+ post) s = true.
Proof.
  induction pre as [|a pre IH].
  - change (includes (s +:+ post) s = true). apply includes_prefix, prefix_app.
  - change (includes (String a (pre +:+ s +:+ post)) s = true).
    simpl. rewrite IH. apply orb_true_r.
Qed.


End StringFacts.

(** ** Properties of [uploadToAzure] over any SDK *)

Section Properties.

Context {sdk : BlobSdk}.

Implicit Types (buffer fileName : Value) (w : World).

(** Unfolds the body and splits on each test and each SDK result in
    program order; every leaf is one path through the function. *)
Ltac unfold_body :=
  unfold uploadToAzure, connection_string, bind, when, process_env,
    call, await, log, ret, throw in *;
  simpl in *.

Ltac split_path :=
  repeat match goal with
    | |- context [ToBoolean ?v] => destruct (ToBoolean v) eqn:?; simpl in *
    | |- context [fromConnectionString ?c] =>
        destruct (fromConnectionString c) eqn:?; simpl in *
    | |- context [getContainerClient ?s ?n] =>
        destruct (getContainerClient s n) eqn:?; simpl in *
    | |- context [createIfNotExists ?c ?o ?s] =>
        destruct (createIfNotExists c o s) as [[?|] ?] eqn:?; simpl in *
    | |- context [getBlockBlobClient ?c ?n] =>
        destruct (getBlockBlobClient c n) eqn:?; simpl in *
    | |- context [uploadData ?b ?d ?s] =>
        destruct (uploadData b d s) as [[?|] ?] eqn:?; simpl in *
    end.

Ltac paths := unfold_body; split_path.

(** The log only grows, by the events of the invocation. *)
Lemma trace_extends buffer fileName w :
  trace (uploadToAzure buffer fileName w).2
  = trace w ++ invocation_log buffer fileName w.
Proof.
  unfold invocation_log. paths;
    rewrite <- ?app_assoc; simpl; by rewrite ?drop_app_length, ?drop_all, ?app_nil_r.
Qed.

(** The module never writes [process.env]. *)
Lemma env_unchanged buffer fileName w :
  env (uploadToAzure buffer fileName w).2 = env w.
Proof. by paths. Qed.

(** Both guards raise the same kind of error object: the identifier
    [error] is bound neither by the module nor on the global object. *)
Lemma error_is_unbound :
  ("error" ∉ lexically_bound) ∧ ("error" ∉ native_error_constructors).
Proof. split; apply (bool_decide_unpack _); by vm_compute. Qed.

Lemma throw_new_error msg line :
  throw_new "error" msg line = mkError "ReferenceError" "error is not defined" line.
Proof. reflexivity. Qed.

(** C1: when [buffer] or [fileName] is falsy (undefined, null, the
    empty string, ...), the invocation ends abruptly with an error
    object thrown by the module, and the world is untouched: no SDK
    call was made (no service client, no container creation, no
    upload), the storage account is as before. *)
Theorem missing_argument_throws_before_any_sdk_call buffer fileName w :
  ToBoolean buffer = false ∨ ToBoolean fileName = false →
  ∃ e, uploadToAzure buffer fileName w = (Abrupt (ThrownError e), w)
       ∧ invocation_log buffer fileName w = [].
Proof.
  intros H. unfold invocation_log.
  destruct H as [H|H]; paths; try congruence;
    (eexists; split; [reflexivity | by rewrite drop_all]).
Qed.

(** C2: with truthy [buffer] and [fileName], when the environment
    variable AZURE_STORAGE_CONNECTION is unset or empty the invocation
    ends abruptly with an error object thrown by the module; all it
    did was read the variable once: no SDK call was made and the
    storage account is as before. *)
Theorem missing_connection_string_throws_before_any_sdk_call buffer fileName w :
  ToBoolean buffer = true →
  ToBoolean fileName = true →
  ToBoolean (connection_string w) = false →
  ∃ e, (uploadToAzure buffer fileName w).1 = Abrupt (ThrownError e)
       ∧ service (uploadToAzure buffer fileName w).2 = service w
       ∧ invocation_log buffer fileName w = [EnvRead AZURE_STORAGE_CONNECTION]
       ∧ sdk_calls (invocation_log buffer fileName w) = [].
Proof.
  intros Hb Hf Hc. unfold invocation_log. paths; try congruence.
  eexists. repeat split. all: by rewrite drop_app_length.
Qed.

(** C9: when an argument is missing and the connection string is
    absent too, the error raised is the one of the first guard (the
    [throw] of line 7, not that of line 10), and the environment was
    not read: the log of the invocation is empty. *)
Theorem argument_check_precedes_connection_check buffer fileName w :
  ToBoolean buffer = false ∨ ToBoolean fileName = false →
  ToBoolean (connection_string w) = false →
  uploadToAzure buffer fileName w
  = (Abrupt (ThrownError (throw_new "error" "Buffer and Filename are required" 7)), w)
  ∧ throw_new "error" "Buffer and Filename are required" 7
    ≠ throw_new "error" "Connection string is required" 10
  ∧ invocation_log buffer fileName w = []
  ∧ (∀ var, EnvRead var ∉ invocation_log buffer fileName w).
Proof.
  intros H _.
  assert (Hrun : uploadToAzure buffer fileName w
    = (Abrupt (ThrownError (throw_new "error" "Buffer and Filename are required" 7)), w)).
  { destruct H as [H|H]; paths; congruence. }
  assert (Hlog : invocation_log buffer fileName w = []).
  { unfold invocation_log. rewrite Hrun. simpl. by rewrite drop_all. }
  split; [done |]. split; [discriminate |]. split; [done |].
  intros var. rewrite Hlog. apply not_elem_of_nil.
Qed.

(** C3 (the code departs from it): with [buffer] undefined the thrown
    object is a [ReferenceError] saying that [error] is not defined;
    the message written in the source is not in it.  With the class
    name [Error] the same statement would carry the message. *)
Theorem guard_error_lacks_its_message w :
  uploadToAzure VUndefined (VString "photo.png") w
  = (Abrupt (ThrownError (mkError "ReferenceError" "error is not defined" 7)), w)
  ∧ err_message (throw_new "error" "Buffer and Filename are required" 7)
    ≠ "Buffer and Filename are required"
  ∧ err_message (throw_new "error" "Connection string is required" 10)
    ≠ "Connection string is required"
  ∧ throw_new "Error" "Buffer and Filename are required" 7
    = mkError "Error" "Buffer and Filename are required" 7.
Proof. repeat split; done. Qed.

(** C4: in every invocation that returns, the container client is the
    one of the constant name "snapmap-blob" on the service client of
    the connection string, whatever the arguments are.  The account, as
    the invocation found it, took [createIfNotExists] with
    [access: "blob"] on that client, which resolved; the upload of
    [buffer] was sent to the account this left and gave the final one.
    So the container exists when the upload is sent, for an SDK whose
    [createIfNotExists] ensures that, and when it existed already the
    account is as it was, for an SDK whose [createIfNotExists] is
    idempotent.  The log shows the two requests in that order. *)
Theorem container_ensured_before_upload buffer fileName w u w' :
  uploadToAzure buffer fileName w = (Normal u, w') →
  ∃ sc cc bc s,
    fromConnectionString (connection_string w) = inr sc
    ∧ getContainerClient sc "snapmap-blob" = inr cc
    ∧ createIfNotExists cc {| access := "blob" |} (service w) = (None, s)
    ∧ getBlockBlobClient cc fileName = inr bc
    ∧ uploadData bc buffer s = (None, service w')
    ∧ (create_ensures_container → containerExists cc s = true)
    ∧ (create_is_idempotent → containerExists cc (service w) = true → s = service w)
    ∧ invocation_log buffer fileName w
      = [EnvRead AZURE_STORAGE_CONNECTION;
         EnvRead AZURE_STORAGE_CONNECTION;
         SdkCall (FromConnectionString (connection_string w)) None;
         SdkCall (GetContainerClient sc "snapmap-blob") None;
         SdkCall (CreateIfNotExists cc {| access := "blob" |}) None;
         SdkCall (GetBlockBlobClient cc fileName) None;
         SdkCall (UploadData bc buffer) None].
Proof.
  intros Hrun. unfold invocation_log. paths; try discriminate.
  simplify_eq.
  eexists _, _, _, _.
  split; [reflexivity |]. split; [eassumption |]. split; [eassumption |].
  split; [eassumption |]. split; [eassumption |].
  split; [intros Hcreate; by eapply Hcreate |].
  split; [intros Hidem Hthere; by eapply Hidem |].
  rewrite <- !app_assoc. simpl. by rewrite drop_app_length.
Qed.

(** No kind of SDK call is attempted twice in an invocation. *)
Lemma no_call_repeated buffer fileName w k :
  (attempts k (invocation_log buffer fileName w) ≤ 1)%nat.
Proof.
  unfold invocation_log. paths;
    rewrite <- ?app_assoc; simpl; rewrite ?drop_app_length, ?drop_all;
    destruct k; vm_compute; lia.
Qed.

(** C7: in every invocation, when the container creation or the
    upload is rejected with [e], the invocation ends abruptly with
    that same [e] and the rejected call is the last event of the log
    (nothing is attempted after it, it is not tried again); and every
    SDK call the invocation makes is attempted exactly once. *)
Theorem sdk_failure_propagates_unchanged buffer fileName w :
  (∀ c e,
     is_request c = true →
     SdkCall c (Some e) ∈ invocation_log buffer fileName w →
     (uploadToAzure buffer fileName w).1 = Abrupt (ThrownBySdk e)
     ∧ ∃ before, invocation_log buffer fileName w = before ++ [SdkCall c (Some e)])
  ∧ (∀ c r,
       SdkCall c r ∈ invocation_log buffer fileName w →
       attempts (kind c) (invocation_log buffer fileName w) = 1).
Proof.
  split.
  - intros c e Hreq. unfold invocation_log. paths;
      rewrite <- ?app_assoc; simpl; rewrite ?drop_app_length, ?drop_all;
      intros Hin; set_unfold in Hin; destruct_or?; simplify_eq; try discriminate.
    + split; [reflexivity | by eexists [_; _; _; _]].
    + split; [reflexivity | by eexists [_; _; _; _; _; _]].
  - intros c r. unfold invocation_log. paths;
      rewrite <- ?app_assoc; simpl; rewrite ?drop_app_length, ?drop_all;
      intros Hin; set_unfold in Hin; destruct_or?; simplify_eq; reflexivity.
Qed.

(** C8: in every invocation the SDK calls made are an initial part of
    the sequence service client, container client, create if not
    exists, blob client, upload, each with the arguments written in
    the source; and an upload only occurs after a [createIfNotExists]
    that resolved. *)
Theorem sdk_calls_in_fixed_order buffer fileName w :
  sdk_calls (invocation_log buffer fileName w) `prefix_of` call_order
  ∧ (∀ c r, SdkCall c r ∈ invocation_log buffer fileName w →
            as_written buffer fileName w c)
  ∧ ∀ bc data r,
      SdkCall (UploadData bc data) r ∈ invocation_log buffer fileName w →
      ∃ before cc opts after,
        invocation_log buffer fileName w
        = before ++ SdkCall (CreateIfNotExists cc opts) None :: after
        ∧ SdkCall (UploadData bc data) r ∈ after.
Proof.
  unfold invocation_log. paths;
    rewrite <- ?app_assoc; simpl; rewrite ?drop_app_length, ?drop_all;
    (split; [by eexists | split]);
    try (intros ? ? Hin; set_unfold in Hin; destruct_or?; simplify_eq; reflexivity);
    intros bc data r Hin; set_unfold in Hin; destruct_or?; simplify_eq.
  - eexists [_; _; _; _], _, _, _. split; [reflexivity | set_solver].
  - eexists [_; _; _; _], _, _, _. split; [reflexivity | set_solver].
Qed.

(** What an invocation that returns has done: the value returned is
    the URL of the blob client built from the connection string, the
    constant container name and [fileName], and the upload of [buffer]
    through that client resolved, leaving the account in its final
    state. *)
Lemma returned_run buffer fileName w u w' :
  uploadToAzure buffer fileName w = (Normal u, w') →
  ToBoolean buffer = true ∧ ToBoolean fileName = true
  ∧ ToBoolean (connection_string w) = true
  ∧ blob_url_of (connection_string w) CONTAINER_NAME fileName = Some u
  ∧ ∃ sc cc bc s,
      getContainerClient sc CONTAINER_NAME = inr cc
      ∧ getBlockBlobClient cc fileName = inr bc
      ∧ u = url bc
      ∧ uploadData bc buffer s = (None, service w').
Proof.
  unfold blob_url_of. paths; intros Hrun; try discriminate.
  simplify_eq. repeat split. eexists _, _, _, _. eauto.
Qed.



(** C10: the URL an invocation returns is [blob_url_of] the connection
    string, the container name and [fileName]; buffer, account state
    and log do not enter it.  Two invocations that return, under the
    same connection string and with the same [fileName], return the
    same URL whatever their buffers are. *)
Theorem url_independent_of_buffer b1 b2 fileName w1 w2 u1 u2 w1' w2' :
  connection_string w1 = connection_string w2 →
  uploadToAzure b1 fileName w1 = (Normal u1, w1') →
  uploadToAzure b2 fileName w2 = (Normal u2, w2') →
  blob_url_of (connection_string w1) CONTAINER_NAME fileName = Some u1 ∧ u1 = u2.
Proof.
  intros Henv (_ & _ & _ & H1 & _)%returned_run (_ & _ & _ & H2 & _)%returned_run.
  split; [done | congruence].
Qed.

(** C6: for an SDK whose uploads overwrite, two invocations in a row
    with the same [fileName] that both return give the same URL; the
    first buffer can be downloaded there after the first one and the
    second buffer after the second. *)
Theorem second_upload_overwrites_first fileName b1 b2 w0 u1 w1 u2 w2 :
  upload_overwrites →
  uploadToAzure b1 fileName w0 = (Normal u1, w1) →
  uploadToAzure b2 fileName w1 = (Normal u2, w2) →
  u1 = u2
  ∧ download (service w1) u1 = Some b1
  ∧ download (service w2) u1 = Some b2.
Proof.
  intros Hup H1 H2.
  assert (Henv : connection_string w0 = connection_string w1).
  { unfold connection_string.
    by rewrite <- (env_unchanged b1 fileName w0), H1. }
  pose proof (returned_run _ _ _ _ _ H1) as (_ & _ & _ & E1 & ? & ? & bc1 & s1 & _ & _ & -> & U1).
  pose proof (returned_run _ _ _ _ _ H2) as (_ & _ & _ & E2 & ? & ? & bc2 & s2 & _ & _ & -> & U2).
  assert (url bc1 = url bc2) as Hu by congruence.
  split; [done |]. split; [by eapply Hup |]. rewrite Hu. by eapply Hup.
Qed.

End Properties.

(** ** The in-memory account meets the SDK contracts *)

Section InMemoryFacts.

Import InMemoryAzure.

Lemma encodeURIComponent_plain (s : string) :
  all_plain s = true → encodeURIComponent s = s.
Proof.
  induction s as [|c s IH]; [done |]. simpl.
  intros [[Hc _]%andb_true_iff Hs]%andb_true_iff. rewrite Hc. by rewrite IH.
Qed.

Lemma escape_blob_name_plain (s : string) :
  all_plain s = true → escape_blob_name s = s.
Proof.
  induction s as [|c s IH]; [done |]. simpl.
  intros [Hc Hs]%andb_true_iff. rewrite Hc, orb_true_r. by rewrite IH.
Qed.

Lemma in_memory_url_names_container_and_plain_blob :
  url_names_container_and_plain_blob (sdk := in_memory_sdk).
Proof.
  intros sc container cc name bc Hcc Hbc
    [[Hcontainer _]%andb_true_iff _]%andb_true_iff
    [[Hname _]%andb_true_iff _]%andb_true_iff.
  simpl in *. unfold get_container_client, get_block_blob_client in *. simplify_eq.
  unfold blob_url, container_url. simpl.
  rewrite encodeURIComponent_plain, escape_blob_name_plain by done. split.
  - replace ((sc +:+ "/" +:+ container) +:+ "/" +:+ name)
      with ((sc +:+ "/") +:+ container +:+ "/" +:+ name)
      by (by rewrite !string_app_assoc).
    apply includes_app.
  - replace ((sc +:+ "/" +:+ container) +:+ "/" +:+ name)
      with (((sc +:+ "/" +:+ container) +:+ "/") +:+ name +:+ "")
      by (by rewrite string_app_nil_r, !string_app_assoc).
    apply includes_app.
Qed.

Lemma in_memory_upload_overwrites : upload_overwrites (sdk := in_memory_sdk).
Proof.
  intros bc data s s' Hup. simpl in *. unfold upload_data in Hup.
  destruct (upload_outage s); [discriminate |].
  destruct (containers s !! container_url (blob_container bc)); [|discriminate].
  simplify_eq. simpl. apply lookup_insert_eq.
Qed.

(** [createIfNotExists], when it resolves, leaves the container in the
    account, and on an account that has the container it changes
    nothing: the access level asked for is kept only when the container
    is new. *)
Lemma in_memory_create_ensures_container :
  create_ensures_container (sdk := in_memory_sdk).
Proof.
  intros c opts a a'. simpl. unfold create_if_not_exists.
  destruct (create_outage a); [discriminate |].
  destruct (containers a !! container_url c) eqn:E; intros ?; simplify_eq;
    apply bool_decide_eq_true.
  - by rewrite E.
  - simpl. rewrite lookup_insert_eq. by eexists.
Qed.

Lemma in_memory_create_is_idempotent :
  create_is_idempotent (sdk := in_memory_sdk).
Proof.
  intros c opts a a' [x Hx]%bool_decide_eq_true. simpl. unfold create_if_not_exists.
  destruct (create_outage a); [discriminate |].
  rewrite Hx. by intros ?; simplify_eq.
Qed.

(** A zero-length [Buffer] is an object, hence truthy: the first guard
    lets it through and it is uploaded. *)
Lemma zero_length_Buffer_is_uploaded :
  (uploadToAzure (VBuffer []) photo_name (configured empty_account)).1
  = Normal "https://snapmap.blob.core.windows.net/snapmap-blob/photo.png".
Proof. reflexivity. Qed.

End InMemoryFacts.

(** ** The properties at sample invocations *)

Section Samples.

Import InMemoryAzure.

Lemma run_of_returned {A} (run : Completion A * World) a :
  returned run.1 = Some a → run = (Normal a, run.2).
Proof. destruct run as [[a'|t] w]; simpl; intros ?; by simplify_eq. Qed.

Lemma first_upload : uploadToAzure photo photo_name w0 = (Normal photo_url, w1).
Proof. unfold w1. apply (run_of_returned _ photo_url). vm_compute. reflexivity. Qed.

Lemma second_upload : uploadToAzure other_photo photo_name w1 = (Normal photo_url, w2).
Proof. unfold w2. apply (run_of_returned _ photo_url). vm_compute. reflexivity. Qed.

(** After the first upload the container is in the account, with the
    access level asked for, and the photo is at its URL. *)
Lemma first_upload_account :
  containerExists (Build_Container endpoint "snapmap-blob") (service w1) = true
  ∧ containers (service w1) !! "https://snapmap.blob.core.windows.net/snapmap-blob"
    = Some "blob"
  ∧ download (service w1) photo_url = Some photo.
Proof. repeat split; vm_compute; reflexivity. Qed.


Lemma failed_upload_log :
  invocation_log photo photo_name w_upload_down
  = [EnvRead AZURE_STORAGE_CONNECTION;
     EnvRead AZURE_STORAGE_CONNECTION;
     SdkCall (FromConnectionString (VString endpoint)) None;
     SdkCall (GetContainerClient endpoint "snapmap-blob") None;
     SdkCall (CreateIfNotExists (Build_Container endpoint "snapmap-blob")
                {| access := "blob" |}) None;
     SdkCall (GetBlockBlobClient (Build_Container endpoint "snapmap-blob")
                photo_name) None;
     SdkCall (UploadData
                (Build_Blob (Build_Container endpoint "snapmap-blob") "photo.png")
                photo) (Some ServiceUnavailable)].
Proof. reflexivity. Qed.



Lemma missing_argument_witness :
  ToBoolean VUndefined = false
  ∧ ∃ e, uploadToAzure VUndefined photo_name w0 = (Abrupt (ThrownError e), w0)
         ∧ invocation_log VUndefined photo_name w0 = [].
Proof.
  split; [reflexivity |].
  apply missing_argument_throws_before_any_sdk_call. left. reflexivity.
Defined.

Lemma missing_connection_string_witness :
  ∃ e, (uploadToAzure photo photo_name (unconfigured empty_account)).1
       = Abrupt (ThrownError e)
       ∧ service (uploadToAzure photo photo_name (unconfigured empty_account)).2
         = empty_account
       ∧ invocation_log photo photo_name (unconfigured empty_account)
         = [EnvRead AZURE_STORAGE_CONNECTION]
       ∧ sdk_calls (invocation_log photo photo_name (unconfigured empty_account)) = [].
Proof.
  apply (missing_connection_string_throws_before_any_sdk_call
           photo photo_name (unconfigured empty_account)); reflexivity.
Defined.

Lemma argument_check_first_witness :
  uploadToAzure (VString "") VUndefined (unconfigured empty_account)
  = (Abrupt (ThrownError (throw_new "error" "Buffer and Filename are required" 7)),
     unconfigured empty_account)
  ∧ throw_new "error" "Buffer and Filename are required" 7
    ≠ throw_new "error" "Connection string is required" 10
  ∧ invocation_log (VString "") VUndefined (unconfigured empty_account) = []
  ∧ (∀ var, EnvRead var
            ∉ invocation_log (VString "") VUndefined (unconfigured empty_account)).
Proof.
  apply argument_check_precedes_connection_check; [left |]; reflexivity.
Defined.

Lemma container_ensured_witness :
  ∃ sc cc bc s,
    fromConnectionString (connection_string w0) = inr sc
    ∧ getContainerClient sc "snapmap-blob" = inr cc
    ∧ createIfNotExists cc {| access := "blob" |} (service w0) = (None, s)
    ∧ getBlockBlobClient cc photo_name = inr bc
    ∧ uploadData bc photo s = (None, service w1)
    ∧ (create_ensures_container → containerExists cc s = true)
    ∧ (create_is_idempotent → containerExists cc (service w0) = true → s = service w0)
    ∧ invocation_log photo photo_name w0
      = [EnvRead AZURE_STORAGE_CONNECTION;
         EnvRead AZURE_STORAGE_CONNECTION;
         SdkCall (FromConnectionString (connection_string w0)) None;
         SdkCall (GetContainerClient sc "snapmap-blob") None;
         SdkCall (CreateIfNotExists cc {| access := "blob" |}) None;
         SdkCall (GetBlockBlobClient cc photo_name) None;
         SdkCall (UploadData bc photo) None].
Proof.
  apply (container_ensured_before_upload photo photo_name w0 photo_url w1).
  exact first_upload.
Defined.



Lemma overwrite_witness :
  photo_url = photo_url
  ∧ download (service w1) photo_url = Some photo
  ∧ download (service w2) photo_url = Some other_photo.
Proof.
  apply (second_upload_overwrites_first photo_name photo other_photo
           w0 photo_url w1 photo_url w2).
  - exact in_memory_upload_overwrites.
  - exact first_upload.
  - exact second_upload.
Defined.

Lemma sdk_failure_witness :
  (uploadToAzure photo photo_name w_upload_down).1
  = Abrupt (ThrownBySdk ServiceUnavailable)
  ∧ ∃ before,
      invocation_log photo photo_name w_upload_down
      = before ++ [SdkCall (UploadData
                              {| blob_container :=
                                   {| account := endpoint;
                                      container_name := "snapmap-blob" |};
                                 blob_name := "photo.png" |} photo)
                           (Some ServiceUnavailable)].
Proof.
  apply (proj1 (sdk_failure_propagates_unchanged photo photo_name w_upload_down)).
  - reflexivity.
  - rewrite failed_upload_log. do 6 apply list_elem_of_further. apply list_elem_of_here.
Defined.

Lemma fixed_order_witness :
  sdk_calls (invocation_log photo photo_name w_upload_down) `prefix_of` call_order.
Proof.
  apply (proj1 (sdk_calls_in_fixed_order photo photo_name w_upload_down)).
Defined.

Lemma url_independent_witness :
  blob_url_of (connection_string w0) CONTAINER_NAME photo_name = Some photo_url
  ∧ photo_url = photo_url.
Proof.
  apply (url_independent_of_buffer photo other_photo photo_name w0 w1
           photo_url photo_url w1 w2).
  - reflexivity.
  - exact first_upload.
  - exact second_upload.
Defined.

End Samples.

(** ** More on [uploadToAzure]: failures, the account and the environment *)

Section UploadOutcomes.

Context {sdk : BlobSdk}.

Ltac unfold_run :=
  unfold invocation_log, uploadToAzure, connection_string, bind, when, process_env,
    call, await, log, ret, throw in *;
  simpl in *.

Ltac split_run :=
  repeat match goal with
    | |- context [ToBoolean ?v] => destruct (ToBoolean v) eqn:?; simpl in *
    | |- context [fromConnectionString ?c] =>
        destruct (fromConnectionString c) eqn:?; simpl in *
    | |- context [getContainerClient ?s ?n] =>
        destruct (getContainerClient s n) eqn:?; simpl in *
    | |- context [createIfNotExists ?c ?o ?s] =>
        destruct (createIfNotExists c o s) as [[?|] ?] eqn:?; simpl in *
    | |- context [getBlockBlobClient ?c ?n] =>
        destruct (getBlockBlobClient c n) eqn:?; simpl in *
    | |- context [uploadData ?b ?d ?s] =>
        destruct (uploadData b d s) as [[?|] ?] eqn:?; simpl in *
    end.

Ltac runs := unfold_run; split_run; rewrite <- ?app_assoc; simpl;
  rewrite ?drop_app_length, ?drop_all.

Ltac found H :=
  repeat (apply elem_of_cons in H as [H | H]; [first [discriminate H | idtac] |]);
  try (by apply elem_of_nil in H).

(** X1: the module throws an error object of its own exactly when a
    precondition fails, and the object is always the [ReferenceError]
    for [error]: from line 7 when an argument is falsy, from line 10
    when the arguments are truthy and the connection string is not. *)
Theorem own_error_iff_precondition_fails (buffer fileName : Value) (w : World) e :
  (uploadToAzure buffer fileName w).1 = Abrupt (ThrownError e)
  ↔ (e = mkError "ReferenceError" "error is not defined" 7
     ∧ (ToBoolean buffer = false ∨ ToBoolean fileName = false))
    ∨ (e = mkError "ReferenceError" "error is not defined" 10
       ∧ ToBoolean buffer = true ∧ ToBoolean fileName = true
       ∧ ToBoolean (connection_string w) = false).
Proof.
  runs; split; try (intros [= <-]; auto; fail); try done;
    try (intros [[-> [?|?]] | (-> & ? & ? & ?)]; done).
Qed.

(** X2: a run returns exactly when the three preconditions hold and
    no SDK call of the run failed: no failure is swallowed, and nothing
    else makes it fail. *)
Theorem returns_iff_nothing_failed (buffer fileName : Value) (w : World) :
  (∃ u, (uploadToAzure buffer fileName w).1 = Normal u)
  ↔ ToBoolean buffer = true ∧ ToBoolean fileName = true
    ∧ ToBoolean (connection_string w) = true
    ∧ ∀ c e, SdkCall c (Some e) ∉ invocation_log buffer fileName w.
Proof.
  runs; split; try (intros [u [=]]; fail); try (intros (? & ? & ? & ?); done).
  all: try (intros (_ & _ & _ & Hok); exfalso; eapply Hok;
            repeat first [apply list_elem_of_here | apply list_elem_of_further]; fail).
  - intros _. do 3 (split; [done |]). intros ? ? Hin. found Hin.
  - intros _. eauto.
Qed.

(** X3: a client constructor that throws ends the run with what it
    threw, as its last event.  When it is the service client or the
    container client, no request was made and the account is as it
    was. *)
Theorem constructor_failure_propagates (buffer fileName : Value) (w : World) c e :
  is_request c = false →
  SdkCall c (Some e) ∈ invocation_log buffer fileName w →
  (uploadToAzure buffer fileName w).1 = Abrupt (ThrownBySdk e)
  ∧ (∃ before, invocation_log buffer fileName w = before ++ [SdkCall c (Some e)])
  ∧ (kind c ≠ KGetBlockBlobClient →
     service (uploadToAzure buffer fileName w).2 = service w
     ∧ attempts KCreateIfNotExists (invocation_log buffer fileName w) = 0
     ∧ attempts KUploadData (invocation_log buffer fileName w) = 0).
Proof.
  intros Hreq. runs; intros Hin; found Hin; simplify_eq; try discriminate.
  - split; [done |]. split; [by eexists [_; _] | done].
  - split; [done |]. split; [by eexists [_; _; _] | done].
  - split; [done |]. split; [by eexists [_; _; _; _; _] | done].
Qed.

(** X4: when ensuring the container is rejected, nothing is uploaded:
    neither the blob client is made nor [uploadData] called, and the
    account is left as the rejected request left it. *)
Theorem failed_create_prevents_upload (buffer fileName : Value) (w : World) cc opts e :
  SdkCall (CreateIfNotExists cc opts) (Some e) ∈ invocation_log buffer fileName w →
  attempts KGetBlockBlobClient (invocation_log buffer fileName w) = 0
  ∧ attempts KUploadData (invocation_log buffer fileName w) = 0
  ∧ service (uploadToAzure buffer fileName w).2
    = (createIfNotExists cc opts (service w)).2.
Proof.
  runs; intros Hin; found Hin; simplify_eq; repeat split; congruence.
Qed.

(** X5: the account changes only through the two requests, and what
    they did stays: the final state is the initial one when no request
    was made, what [createIfNotExists] left when the upload was not
    reached, and what [uploadData] left otherwise, whether or not it
    was rejected.  Nothing is undone after a failure. *)
Theorem account_after_run (buffer fileName : Value) (w : World) :
  let log := invocation_log buffer fileName w in
  let final := service (uploadToAzure buffer fileName w).2 in
  (attempts KCreateIfNotExists log = 0 → final = service w)
  ∧ (∀ cc opts r,
       SdkCall (CreateIfNotExists cc opts) r ∈ log →
       let ensured := (createIfNotExists cc opts (service w)).2 in
       (attempts KUploadData log = 0 → final = ensured)
       ∧ ∀ bc data r',
           SdkCall (UploadData bc data) r' ∈ log →
           final = (uploadData bc data ensured).2).
Proof.
  simpl. runs; split.
  all: try (intros Hno; first [done | vm_compute in Hno; discriminate Hno]).
  all: try (intros ? ? ? Hin; found Hin; fail).
  all: intros ? ? ? Hin; found Hin; simplify_eq;
    repeat match goal with
      | H : createIfNotExists ?c ?o ?s = _ |- context [createIfNotExists ?c ?o ?s] =>
          rewrite H
      end; simpl; split.
  all: try (intros Hno; first [done | vm_compute in Hno; discriminate Hno]).
  all: try (intros ? ? ? Hup; found Hup; fail).
  all: intros ? ? ? Hup; found Hup; simplify_eq;
    repeat match goal with
      | H : uploadData ?b ?d ?s = _ |- context [uploadData ?b ?d ?s] => rewrite H
      end; done.
Qed.

(** X6: the module only reads the environment: [process.env] is the
    same after a run, the one variable read is
    AZURE_STORAGE_CONNECTION, and it is read at most twice. *)
Theorem environment_is_only_read (buffer fileName : Value) (w : World) :
  env (uploadToAzure buffer fileName w).2 = env w
  ∧ (∀ var, EnvRead var ∈ invocation_log buffer fileName w →
            var = AZURE_STORAGE_CONNECTION)
  ∧ (length (omap (λ ev, match ev with EnvRead var => Some var | _ => None end)
               (invocation_log buffer fileName w))
     ≤ 2)%nat.
Proof.
  runs; (split; [done |]); (split; [intros var Hin; found Hin; by simplify_eq |]);
    simpl; lia.
Qed.

(** X7: a [Buffer] passes the guard whatever its length: with a truthy
    file name and a connection string, even a zero-length buffer is
    taken to the SDK. *)
Theorem any_buffer_reaches_the_sdk (bytes : list byte) (fileName : Value) (w : World) :
  ToBoolean fileName = true →
  ToBoolean (connection_string w) = true →
  ∃ r after,
    invocation_log (VBuffer bytes) fileName w
    = EnvRead AZURE_STORAGE_CONNECTION :: EnvRead AZURE_STORAGE_CONNECTION
      :: SdkCall (FromConnectionString (connection_string w)) r :: after.
Proof.
  intros Hf Hc. runs; try congruence; by eexists _, _.
Qed.

End UploadOutcomes.
(** ** Facts about text and the email pattern *)

Section TextFacts.

Import RegisterUserScreen.

Implicit Types (s l d t : text) (c : N).

Lemma trimStart_no_leading c s :
  is_whitespace c = false → trimStart (c :: s) = c :: s.
Proof. intros H. simpl. by rewrite H. Qed.

Lemma trimStart_app_whitespace pad s :
  forallb is_whitespace pad = true → trimStart (pad ++ s) = trimStart s.
Proof.
  induction pad as [|c pad IH]; [done |]. simpl.
  intros [Hc Hpad]%andb_true_iff. rewrite Hc. auto.
Qed.

Lemma trimStart_nil_iff s : trimStart s = [] ↔ forallb is_whitespace s = true.
Proof.
  induction s as [|c s IH]; [done |]. simpl.
  destruct (is_whitespace c); simpl; [done |]. split; discriminate.
Qed.

Lemma forallb_reverse (p : N → bool) s : forallb p (reverse s) = forallb p s.
Proof.
  induction s as [|c s IH]; [done |]. rewrite reverse_cons, forallb_app, IH. simpl.
  rewrite andb_true_r. apply andb_comm.
Qed.

Lemma trimStart_all_whitespace s :
  forallb is_whitespace s = true → trimStart s = [].
Proof. apply trimStart_nil_iff. Qed.

Lemma trimStart_suffix s : ∃ pad, s = pad ++ trimStart s ∧ forallb is_whitespace pad = true.
Proof.
  induction s as [|c s (pad & Hs & Hpad)]; [by exists [] |]. simpl.
  destruct (is_whitespace c) eqn:Hc.
  - exists (c :: pad). simpl. rewrite Hc, Hpad. split; [by f_equal | done].
  - by exists [].
Qed.

Lemma trimEnd_prefix s : ∃ pad, s = trimEnd s ++ pad ∧ forallb is_whitespace pad = true.
Proof.
  unfold trimEnd. destruct (trimStart_suffix (reverse s)) as (pad & Hs & Hpad).
  exists (reverse pad). rewrite forallb_reverse. split; [| done].
  rewrite <- reverse_app, <- Hs. by rewrite reverse_involutive.
Qed.

Lemma trimStart_head s c : head (trimStart s) = Some c → is_whitespace c = false.
Proof.
  induction s as [|c' s IH]; [done |]. simpl.
  destruct (is_whitespace c') eqn:Hc; [done |]. simpl. by intros [= <-].
Qed.

Lemma trimStart_id s :
  (∀ c, head s = Some c → is_whitespace c = false) → trimStart s = s.
Proof. destruct s as [|c s]; [done |]. simpl. intros H. by rewrite (H c). Qed.

(** A string is blank for [trim] exactly when it consists of white
    space. *)
Lemma trim_blank_iff s : nonempty (trim s) = false ↔ forallb is_whitespace s = true.
Proof.
  unfold trim.
  assert (Hne : ∀ x : text, nonempty x = false ↔ x = []) by (by intros []).
  rewrite Hne. destruct (trimStart_suffix s) as (pad & Hs & Hpad).
  destruct (trimEnd_prefix (trimStart s)) as (pad' & Hs' & Hpad'). split.
  - intros H. rewrite H in Hs'. simpl in Hs'. rewrite Hs, forallb_app, Hpad, Hs'. done.
  - intros H. by rewrite (trimStart_all_whitespace s H).
Qed.

(** What [trim] returns neither starts nor ends with white space. *)
Lemma trim_ends s c :
  head (trim s) = Some c ∨ last (trim s) = Some c → is_whitespace c = false.
Proof.
  unfold trim. intros [H | H].
  - destruct (trimEnd_prefix (trimStart s)) as (pad & Hs & _).
    apply (trimStart_head s). rewrite Hs, head_app. by rewrite H.
  - unfold trimEnd in H. rewrite last_reverse in H. by eapply trimStart_head.
Qed.

(** [trim] gives back a string that neither starts nor ends with white
    space, whatever white space is put around it. *)
Lemma trim_padded before core after :
  forallb is_whitespace before = true →
  forallb is_whitespace after = true →
  (∀ c, head core = Some c ∨ last core = Some c → is_whitespace c = false) →
  trim (before ++ core ++ after) = core.
Proof.
  intros Hb Ha Hcore. unfold trim.
  rewrite (trimStart_app_whitespace before _ Hb).
  destruct core as [|c core].
  { simpl. rewrite (trimStart_all_whitespace after Ha). done. }
  rewrite trimStart_id by (simpl; intros ? [= <-]; apply Hcore; by left).
  unfold trimEnd. rewrite reverse_app, trimStart_app_whitespace
    by (by rewrite forallb_reverse).
  rewrite trimStart_id; [apply reverse_involutive |].
  intros c' Hc'. rewrite head_reverse in Hc'. apply Hcore. by right.
Qed.

Lemma trim_id_no_whitespace s :
  forallb (λ c, negb (is_whitespace c)) s = true → trim s = s.
Proof.
  intros H. rewrite <- (trim_padded [] s []) at 2; [by rewrite app_nil_r | done.. |].
  assert (Hall : ∀ c, c ∈ s → is_whitespace c = false).
  { intros c Hc. apply list_elem_of_In in Hc.
    rewrite forallb_forall in H. by apply negb_true_iff, H. }
  intros c [Hc | Hc]; apply Hall.
  - destruct s; simplify_eq/=. apply list_elem_of_here.
  - by apply last_Some_elem_of.
Qed.

(** The three ways a token list consumes a string. *)
Lemma full_match_nil s : full_match s [] = true ↔ s = [].
Proof. by destruct s. Qed.

Lemma full_match_once cls re s :
  full_match s (Once cls :: re) = true
  ↔ ∃ c s', s = c :: s' ∧ cls c = true ∧ full_match s' re = true.
Proof.
  destruct s as [|c s']; simpl.
  - split; [discriminate | by intros (? & ? & ? & _)].
  - rewrite andb_true_iff. split.
    + intros [? ?]. by exists c, s'.
    + intros (? & ? & ? & ? & ?). by simplify_eq.
Qed.

Lemma full_match_one_or_more cls re s :
  full_match s (OneOrMore cls :: re) = true
  ↔ ∃ run rest, s = run ++ rest ∧ run ≠ [] ∧ forallb cls run = true
                ∧ full_match rest re = true.
Proof.
  induction s as [|c s' IH]; simpl.
  - split; [discriminate |]. intros (run & rest & Hs & Hrun & _).
    by destruct run.
  - rewrite andb_true_iff, orb_true_iff, IH. split.
    + intros [Hc [Hre | (run & rest & -> & Hrun & Hall & Hre)]].
      * exists [c], s'. simpl. by rewrite Hc.
      * exists (c :: run), rest. simpl. by rewrite Hc, Hall.
    + intros (run & rest & Hs & Hrun & Hall & Hre).
      destruct run as [|c' run]; [done |]. simplify_eq/=.
      apply andb_true_iff in Hall as [Hc Hall]. split; [done |].
      destruct run as [|c'' run]; [by left |]. right.
      by exists (c'' :: run), rest.
Qed.

End TextFacts.

(** ** The email pattern and [validateForm] *)

Section Validation.

Import RegisterUserScreen.

Context {outside : Outside}.

Implicit Types (s : State) (e l d t : text).

Lemma not_space_nor_at_spec c :
  not_space_nor_at c = true ↔ is_whitespace c = false ∧ c ≠ 64%N.
Proof.
  unfold not_space_nor_at. rewrite negb_true_iff, orb_false_iff, N.eqb_neq. done.
Qed.

Lemma ordinary_no_whitespace l :
  forallb not_space_nor_at l = true → forallb (λ c, negb (is_whitespace c)) l = true.
Proof.
  induction l as [|c l IH]; [done |]. simpl.
  intros [Hc Hl]%andb_true_iff. apply not_space_nor_at_spec in Hc as [-> _]. auto.
Qed.

Lemma ordinary_no_at l :
  forallb not_space_nor_at l = true → count_occ N.eq_dec l 64%N = 0.
Proof.
  induction l as [|c l IH]; [done |]. simpl.
  intros [Hc Hl]%andb_true_iff. apply not_space_nor_at_spec in Hc as [_ Hc].
  destruct (N.eq_dec c 64%N); [done | auto].
Qed.

Lemma email_shape e :
  email_test e = true
  ↔ ∃ l d t,
      e = l ++ 64%N :: d ++ 46%N :: t
      ∧ l ≠ [] ∧ d ≠ [] ∧ t ≠ []
      ∧ forallb not_space_nor_at l = true
      ∧ forallb not_space_nor_at d = true
      ∧ forallb not_space_nor_at t = true.
Proof.
  unfold email_test, email_pattern. rewrite full_match_one_or_more. split.
  - intros (l & r1 & -> & Hl & Hall & H1).
    apply full_match_once in H1 as (c1 & r2 & -> & Hc1 & H2).
    apply full_match_one_or_more in H2 as (d & r3 & -> & Hd & Hdall & H3).
    apply full_match_once in H3 as (c2 & r4 & -> & Hc2 & H4).
    apply full_match_one_or_more in H4 as (t & r5 & -> & Ht & Htall & H5).
    apply full_match_nil in H5 as ->.
    apply N.eqb_eq in Hc1 as ->. apply N.eqb_eq in Hc2 as ->.
    exists l, d, t. by rewrite app_nil_r.
  - intros (l & d & t & -> & Hl & Hd & Ht & Hlall & Hdall & Htall).
    exists l, (64%N :: d ++ 46%N :: t). repeat split; [done.. |].
    apply full_match_once. exists 64%N, (d ++ 46%N :: t). repeat split.
    apply full_match_one_or_more. exists d, (46%N :: t). repeat split; [done.. |].
    apply full_match_once. exists 46%N, t. repeat split.
    apply full_match_one_or_more. exists t, []. rewrite app_nil_r. by repeat split.
Qed.

Lemma email_necessary e :
  email_test e = true →
  forallb (λ c, negb (is_whitespace c)) e = true
  ∧ count_occ N.eq_dec e 64%N = 1
  ∧ (5 ≤ length e)%nat.
Proof.
  intros (l & d & t & -> & Hl & Hd & Ht & Hlall & Hdall & Htall)%email_shape.
  repeat split.
  - rewrite forallb_app. simpl. rewrite forallb_app. simpl.
    by rewrite !ordinary_no_whitespace.
  - rewrite count_occ_app. simpl. rewrite count_occ_app. simpl.
    rewrite !ordinary_no_at by done. done.
  - rewrite length_app. simpl. rewrite length_app. simpl.
    destruct l, d, t; simpl; try done; lia.
Qed.

Lemma email_test_trim e : email_test e = true → trim e = e ∧ nonempty e = true.
Proof.
  intros (Hws & _ & Hlen)%email_necessary. split.
  - by apply trim_id_no_whitespace.
  - destruct e; [simpl in Hlen; lia | done].
Qed.

(** The errors [validateForm] computes from the three fields it
    reads. *)
Lemma validateForm_run s name email collegeName :
  formData s !! "name" = Some name →
  formData s !! "email" = Some email →
  formData s !! "collegeName" = Some collegeName →
  ∃ newErrors,
    validateForm s
    = ([SetState (SetErrors newErrors)], inr (bool_decide (size newErrors = 0)))
    ∧ newErrors !! "name"
      = (if nonempty (trim name) then None else Some (text_of "Name is required"))
    ∧ newErrors !! "email"
      = (if negb (nonempty (trim email)) then Some (text_of "Email is required")
         else if email_test email then None
              else Some (text_of "Please enter a valid email"))
    ∧ newErrors !! "collegeName"
      = (if nonempty (trim collegeName) then None
         else Some (text_of "College name is required"))
    ∧ ∀ field, field ∉ ["name"; "email"; "collegeName"] → newErrors !! field = None.
Proof.
  intros Hn He Hc. unfold validateForm, read_field. rewrite Hn, He, Hc. simpl.
  eexists. split; [reflexivity |].
  destruct (nonempty (trim name)), (nonempty (trim email)), (email_test email),
    (nonempty (trim collegeName)); simpl;
    (split; [by simplify_map_eq | split; [by simplify_map_eq | split; [by simplify_map_eq |]]]);
    intros field Hf; rewrite ?lookup_insert_ne, ?lookup_empty; set_solver.
Qed.

(** X8: the pattern accepts exactly the strings made of a non-empty
    local part, [@], and a domain part that has a full stop with
    something before and something after it, where no part contains
    white space or a further [@]. *)
Theorem email_test_accepts_exactly e :
  email_test e = true
  ↔ ∃ l d t,
      e = l ++ 64%N :: d ++ 46%N :: t
      ∧ l ≠ [] ∧ d ≠ [] ∧ t ≠ []
      ∧ forallb not_space_nor_at l = true
      ∧ forallb not_space_nor_at d = true
      ∧ forallb not_space_nor_at t = true.
Proof. apply email_shape. Qed.

(** X9: what every accepted email has: no white space anywhere (so
    none at either end), exactly one [@], and at least five code
    units. *)
Theorem email_test_necessary e :
  email_test e = true →
  forallb (λ c, negb (is_whitespace c)) e = true
  ∧ count_occ N.eq_dec e 64%N = 1
  ∧ (5 ≤ length e)%nat.
Proof. apply email_necessary. Qed.

Lemma validateForm_valid_iff s name email collegeName :
  formData s !! "name" = Some name →
  formData s !! "email" = Some email →
  formData s !! "collegeName" = Some collegeName →
  (validateForm s).2 = inr true
  ↔ nonempty (trim name) = true
    ∧ email_test email = true
    ∧ nonempty (trim collegeName) = true.
Proof.
  intros Hn He Hc.
  destruct (validateForm_run s name email collegeName Hn He Hc)
    as (m & -> & Hname & Hemail & Hcollege & Hrest).
  simpl. split.
  - intros [= Hsize%bool_decide_eq_true%map_size_empty_iff]. subst m.
    rewrite lookup_empty in Hname, Hemail, Hcollege.
    destruct (nonempty (trim name)), (nonempty (trim email)), (email_test email),
      (nonempty (trim collegeName)); simplify_eq/=; done.
  - intros (Hn' & He' & Hc'). f_equal. apply bool_decide_eq_true, map_size_empty_iff.
    apply map_eq. intros field. rewrite lookup_empty.
    destruct (email_test_trim email He') as [Htrim Hne].
    rewrite Hn' in Hname. rewrite Htrim, Hne, He' in Hemail. rewrite Hc' in Hcollege.
    destruct (decide (field = "name")) as [-> | ?]; [done |].
    destruct (decide (field = "email")) as [-> | ?]; [done |].
    destruct (decide (field = "collegeName")) as [-> | ?]; [done |].
    apply Hrest. intros Hin.
    repeat (apply elem_of_cons in Hin as [-> | Hin]; [done |]).
    by apply elem_of_nil in Hin.
Qed.

(** X10: [validateForm] returns [true] exactly when name and college
    name are not blank and the email, as typed, matches the pattern;
    the test that the email is not blank adds nothing to that. *)
Theorem validateForm_accepts_iff s name email collegeName :
  formData s !! "name" = Some name →
  formData s !! "email" = Some email →
  formData s !! "collegeName" = Some collegeName →
  (validateForm s).2 = inr true
  ↔ nonempty (trim name) = true
    ∧ email_test email = true
    ∧ nonempty (trim collegeName) = true.
Proof. apply validateForm_valid_iff. Qed.

(** The errors of a validation, field by field.  A blank name or
    college name is "required"; a blank email is "required" and an
    email that is not blank but fails the pattern is "not valid", never
    both; no other field ever gets an error. *)
Lemma validateForm_messages s name email collegeName :
  formData s !! "name" = Some name →
  formData s !! "email" = Some email →
  formData s !! "collegeName" = Some collegeName →
  ∃ newErrors,
    (validateForm s).1 = [SetState (SetErrors newErrors)]
    ∧ newErrors !! "name"
      = (if nonempty (trim name) then None else Some (text_of "Name is required"))
    ∧ newErrors !! "email"
      = (if negb (nonempty (trim email)) then Some (text_of "Email is required")
         else if email_test email then None
              else Some (text_of "Please enter a valid email"))
    ∧ newErrors !! "collegeName"
      = (if nonempty (trim collegeName) then None
         else Some (text_of "College name is required"))
    ∧ ∀ field, field ∉ required_fields → newErrors !! field = None.
Proof.
  intros Hn He Hc.
  destruct (validateForm_run s name email collegeName Hn He Hc)
    as (m & -> & Hname & Hemail & Hcollege & Hrest).
  by exists m.
Qed.

(** X11: an email that would pass once trimmed is refused when white
    space surrounds it: the pattern is tested on the text as typed,
    though the request would send the trimmed text. *)
Theorem padded_email_is_refused s name email collegeName before after :
  formData s !! "name" = Some name →
  formData s !! "email" = Some (before ++ email ++ after) →
  formData s !! "collegeName" = Some collegeName →
  email_test email = true →
  forallb is_whitespace before = true →
  forallb is_whitespace after = true →
  before ++ after ≠ [] →
  trim (before ++ email ++ after) = email
  ∧ (validateForm s).2 = inr false
  ∧ ∃ newErrors,
      (validateForm s).1 = [SetState (SetErrors newErrors)]
      ∧ newErrors !! "email" = Some (text_of "Please enter a valid email").
Proof.
  intros Hn He Hc Hok Hb Ha Hpad.
  destruct (email_necessary email Hok) as (Hws & _ & _).
  destruct (email_test_trim email Hok) as [_ Hne].
  assert (Htrim : trim (before ++ email ++ after) = email).
  { apply trim_padded; [done.. |]. intros c Hc'.
    assert (c ∈ email) as Hin%list_elem_of_In.
    { destruct Hc' as [Hc' | Hc']; [| by apply last_Some_elem_of].
      destruct email; simplify_eq/=. apply list_elem_of_here. }
    rewrite forallb_forall in Hws. by apply negb_true_iff, Hws. }
  assert (Hbad : email_test (before ++ email ++ after) = false).
  { destruct (email_test (before ++ email ++ after)) eqn:Ht; [| done].
    apply email_necessary in Ht as (Hall & _).
    rewrite !forallb_app in Hall.
    apply andb_true_iff in Hall as [Hb' [_ Ha']%andb_true_iff].
    destruct before as [|c before]; [destruct after as [|c after]; [done |] |];
      simpl in *.
    - apply andb_true_iff in Ha as [Hc1 _]. apply andb_true_iff in Ha' as [Hc2 _].
      by rewrite Hc1 in Hc2.
    - apply andb_true_iff in Hb as [Hc1 _]. apply andb_true_iff in Hb' as [Hc2 _].
      by rewrite Hc1 in Hc2. }
  split; [done |].
  destruct (validateForm_run s name _ collegeName Hn He Hc)
    as (m & -> & _ & Hemail & _).
  rewrite Htrim, Hne, Hbad in Hemail. simpl in *. split.
  - f_equal. apply bool_decide_eq_false. intros Hsize%map_size_empty_iff.
    subst m. by rewrite lookup_empty in Hemail.
  - by exists m.
Qed.

End Validation.

(** ** [handleSubmit] *)

Section Submit.

Import RegisterUserScreen.

Context {outside : Outside}.

Implicit Types (s : State) (user : option ClerkUser).

Lemma or_else_status n d :
  or_else (text_of "Registration failed with status " ++ number_text n) d
  = text_of "Registration failed with status " ++ number_text n.
Proof. reflexivity. Qed.

Lemma or_else_parse_failure d :
  or_else (text_of "Failed to parse server response") d
  = text_of "Failed to parse server response".
Proof. reflexivity. Qed.

Opaque text_of.

Lemma complete_lookup fd field :
  complete fd → field ∈ form_fields → ∃ value, fd !! field = Some value.
Proof. intros H Hin. destruct (H field Hin) as [v Hv]. eauto. Qed.

Lemma payload_run fd :
  complete fd →
  ∃ name email collegeName phoneNumber year gender,
    fd !! "name" = Some name ∧ fd !! "email" = Some email
    ∧ fd !! "collegeName" = Some collegeName
    ∧ fd !! "phoneNumber" = Some phoneNumber
    ∧ fd !! "year" = Some year ∧ fd !! "gender" = Some gender
    ∧ payload fd
      = ([], inr (mkPayload (trim name) (trim email) (trim collegeName)
                    (or_undefined (trim phoneNumber)) (or_undefined (trim year))
                    (or_undefined (trim gender)))).
Proof.
  intros H.
  destruct (complete_lookup fd "name" H) as [name Hn]; [set_solver |].
  destruct (complete_lookup fd "email" H) as [email He]; [set_solver |].
  destruct (complete_lookup fd "collegeName" H) as [collegeName Hc]; [set_solver |].
  destruct (complete_lookup fd "phoneNumber" H) as [phoneNumber Hp]; [set_solver |].
  destruct (complete_lookup fd "year" H) as [year Hy]; [set_solver |].
  destruct (complete_lookup fd "gender" H) as [gender Hg]; [set_solver |].
  exists name, email, collegeName, phoneNumber, year, gender.
  unfold payload, read_field. rewrite Hn, He, Hc, Hp, Hy, Hg. done.
Qed.

Lemma validateForm_complete s :
  complete (formData s) →
  ∃ newErrors,
    validateForm s
    = ([SetState (SetErrors newErrors)], inr (bool_decide (size newErrors = 0))).
Proof.
  intros H.
  destruct (payload_run _ H) as (n & e & c & _ & _ & _ & Hn & He & Hc & _).
  destruct (validateForm_run s n e c Hn He Hc) as (newErrors & Hrun & _).
  eauto.
Qed.

(** Splits a run of [handleSubmit] along the answers of the outside
    world, in program order. *)
Ltac known call :=
  match goal with H : call = _ |- _ => rewrite H end.

Ltac answers :=
  repeat match goal with
    | |- context [getToken ?a] =>
        first [known (getToken a) | destruct (getToken a) as [? | [[|? ?]|]] eqn:?];
        simpl
    | |- context [has_token ?t] =>
        first [known (has_token t) | destruct t as [[|? ?]|]]; simpl
    | |- context [fetch ?r] =>
        first [known (fetch r) | destruct (fetch r) as [? | ?] eqn:?]; simpl
    | |- context [response_text ?r] =>
        first [known (response_text r)
              | destruct (response_text r) as [? | [|? ?]] eqn:?]; simpl
    | |- context [JSON_parse ?t] =>
        first [known (JSON_parse t) | destruct (JSON_parse t) as [? | ?] eqn:?]; simpl
    | |- context [ok ?r] => first [known (ok r) | destruct (ok r) eqn:?]; simpl
    | |- context [data_message ?j] =>
        first [known (data_message j)
              | destruct (data_message j) as [? | [?|]] eqn:?]; simpl
    | |- context [user_reload] =>
        first [known user_reload | destruct user_reload as [? | ?] eqn:?]; simpl
    end.

(** The event of a concrete log that a hypothesis speaks of. *)
Ltac pick H :=
  repeat (apply elem_of_cons in H as [H | H]; [first [discriminate H | idtac] |]);
  try (by apply elem_of_nil in H).

Ltac submit s user H :=
  let p := fresh "p" in
  let Hp := fresh "Hp" in
  let errs := fresh "newErrors" in
  let Hv := fresh "Hv" in
  destruct (payload_run _ H) as (? & ? & ? & ? & ? & ? & _ & _ & _ & _ & _ & _ & Hp);
  destruct (validateForm_complete s H) as (errs & Hv);
  unfold handleSubmit, alert, read_message;
  rewrite Hv, Hp;
  cbn [pbind pret emit pthrow try_catch try_finally external lift app negb];
  destruct (bool_decide (size errs = 0)) eqn:?;
  cbn [pbind pret emit pthrow try_catch try_finally external lift app negb];
  [destruct (isSubmitting s) eqn:?;
   cbn [pbind pret emit pthrow try_catch try_finally external lift app negb];
   [| destruct user as [?|];
      cbn [pbind pret emit pthrow try_catch try_finally external lift app negb];
      [answers |]] |].

(** A run on a form that has its six fields never throws: every
    failure of Clerk, of the network or of parsing ends inside the
    handler. *)
Lemma handleSubmit_never_rejects s user :
  complete (formData s) → (handleSubmit s user).2 = inr tt.
Proof.
  intros H. submit s user H; reflexivity.
Qed.

Ltac literal_clash :=
  match goal with
  | H : text_of ?a = text_of ?b |- _ => by vm_compute in H
  | H : (text_of ?a, _) = (text_of ?b, _) |- _ => injection H as H _; by vm_compute in H
  end.

(** X12: what a run leaves in the state.  The errors become the result
    of the validation, replacing what was shown before; the form
    fields and the dropdowns are untouched; [isSubmitting] is back to
    its value in the snapshot, and once it was set, the last update of
    the run clears it. *)
Theorem handleSubmit_state s user :
  complete (formData s) →
  ∃ newErrors valid,
    validateForm s = ([SetState (SetErrors newErrors)], inr valid)
    ∧ apply_updates (state_updates (handleSubmit s user).1) s
      = mkState (formData s) newErrors (isSubmitting s)
          (genderDropdownVisible s) (yearDropdownVisible s)
    ∧ (SetIsSubmitting true ∈ state_updates (handleSubmit s user).1 →
       last (state_updates (handleSubmit s user).1) = Some (SetIsSubmitting false)).
Proof.
  intros H. submit s user H; eexists _, _; (split; [reflexivity |]);
    (split; [by destruct s; simplify_eq/= | ]); simpl; try done.
  all: intros Hin; set_unfold in Hin; destruct_or?; by simplify_eq.
Qed.

(** X13: the alerts of a run.  A run shows at most one alert, and shows
    none only when the form is valid and the snapshot says a
    submission is under way. *)
Theorem handleSubmit_alerts s user :
  complete (formData s) →
  (length (alerts (handleSubmit s user).1) ≤ 1)%nat
  ∧ (alerts (handleSubmit s user).1 = []
     ↔ (validateForm s).2 = inr true ∧ isSubmitting s = true).
Proof.
  intros H. submit s user H; simpl; (split; [lia |]); split; try done;
    intros [? ?]; congruence.
Qed.

(** X14: nothing leaves the component unless the form is valid, no
    submission is under way in the snapshot and a user is signed in;
    and a request is sent only with a non-empty token: it is the one
    request of the run, a POST to the signup address whose
    [Authorization] is [Bearer] and the token of Clerk (the plain one,
    or the one of the default template when the plain one is missing)
    and whose body is made of the trimmed fields. *)
Theorem handleSubmit_guards s user :
  complete (formData s) →
  (∀ ev, ev ∈ (handleSubmit s user).1 → is_external ev = true →
         (validateForm s).2 = inr true ∧ isSubmitting s = false ∧ is_Some user)
  ∧ (∀ request, Fetch request ∈ (handleSubmit s user).1 →
       fetches (handleSubmit s user).1 = [request]
       ∧ req_url request = signup_url
       ∧ req_method request = text_of "POST"
       ∧ payload (formData s) = ([], inr (req_body request))
       ∧ ∃ token,
           nonempty token = true
           ∧ req_authorization request = text_of "Bearer " ++ token
           ∧ (getToken None = inr (Some token)
              ∨ (∃ first, getToken None = inr first ∧ has_token first = false
                          ∧ getToken (Some (text_of "default")) = inr (Some token)))).
Proof.
  intros H. split.
  - submit s user H; simpl; intros ev Hin Hext;
      pick Hin; simplify_eq; try discriminate; eauto.
  - submit s user H; simpl; intros request Hin; pick Hin; simplify_eq.
    all: simpl; (split; [reflexivity |]); (split; [reflexivity |]);
      (split; [reflexivity |]); (split; [done |]);
      eexists; (split; [| split]); [| reflexivity |]; [reflexivity |];
      first [by left | right; eexists; by repeat split].
Qed.

(** X15: the success alert is shown exactly when the request was
    answered with [ok]; whether the body could be read or parsed and
    whether reloading the user worked play no part. *)
Theorem success_iff_ok s user :
  complete (formData s) →
  (text_of "Success", text_of "Registration completed successfully!")
    ∈ alerts (handleSubmit s user).1
  ↔ ∃ request response,
      Fetch request ∈ (handleSubmit s user).1
      ∧ fetch request = inr response ∧ ok response = true.
Proof.
  intros H. submit s user H; simpl; split.
  all: try (intros (request & response & Hin & Hf & Hok);
            pick Hin; simplify_eq;
            first [done | congruence | apply list_elem_of_here]).
  all: intros Hin; set_unfold in Hin; destruct_or?; try done; try literal_clash.
  all: eexists _, _;
    (split; [repeat first [apply list_elem_of_here | apply list_elem_of_further] |]);
    split; [eassumption | assumption].
Qed.

(** Brings together what is known of one answer of the outside. *)
Ltac same_answer :=
  repeat match goal with
    | H : ?call = _, H' : ?call = _ |- _ => rewrite H in H'; simplify_eq
    end.

Lemma refused_alert s user request response :
  complete (formData s) →
  Fetch request ∈ (handleSubmit s user).1 →
  fetch request = inr response →
  ok response = false →
  alerts (handleSubmit s user).1
  = [(text_of "Registration Failed",
      or_else (refusal_message response)
        (text_of "An error occurred during registration. Please try again."))].
Proof.
  intros H.
  submit s user H; simpl; intros Hin Hf Hok; pick Hin; simplify_eq; same_answer;
    try done; unfold refusal_message;
    repeat match goal with
      | E : ?call = _ |- context [?call] => rewrite E
      end;
    by rewrite ?or_else_status, ?or_else_parse_failure.
Qed.

(** X16: what the user is told when the server refuses.  For a request
    answered without [ok] the one alert is "Registration Failed".  Its
    message is the [message] of the parsed body when there is a truthy
    one; the status line when the body is empty or has no such member;
    and "Failed to parse server response" when the body cannot be read
    or parsed. *)
Theorem refused_registration_message s user request response :
  complete (formData s) →
  Fetch request ∈ (handleSubmit s user).1 →
  fetch request = inr response →
  ok response = false →
  ∃ shown,
    alerts (handleSubmit s user).1
    = [(text_of "Registration Failed",
        or_else shown
          (text_of "An error occurred during registration. Please try again."))]
    ∧ (∀ body j message,
         response_text response = inr body → nonempty body = true →
         JSON_parse body = inr j → data_message j = inr (Some message) →
         shown = message)
    ∧ (∀ body j,
         response_text response = inr body → nonempty body = true →
         JSON_parse body = inr j → data_message j = inr None →
         shown = text_of "Registration failed with status "
                 ++ number_text (status response))
    ∧ (response_text response = inr [] →
       shown = text_of "Registration failed with status "
               ++ number_text (status response))
    ∧ (∀ body e,
         response_text response = inr body → nonempty body = true →
         JSON_parse body = inl e →
         shown = text_of "Failed to parse server response")
    ∧ (∀ e, response_text response = inl e →
            shown = text_of "Failed to parse server response").
Proof.
  intros H Hin Hf Hok. exists (refusal_message response).
  split; [by eapply refused_alert |]. unfold refusal_message.
  repeat split.
  - intros body j message -> Hb -> ->. by destruct body.
  - intros body j -> Hb -> ->. by destruct body.
  - by intros ->.
  - intros body e -> Hb ->. by destruct body.
  - by intros e ->.
Qed.

(** X17: how a missing token is reported.  When the plain token request
    is rejected the run ends as a failed registration with the message
    of the rejection.  When it gives no token the default template is
    tried; a rejection there is swallowed and reported, like an empty
    answer, as a missing token.  In none of these cases is a request
    sent. *)
Theorem token_failures s user :
  complete (formData s) →
  (validateForm s).2 = inr true →
  isSubmitting s = false →
  is_Some user →
  let missing :=
    (text_of "Error",
     text_of "Authentication token not available. Please sign in again.") in
  (∀ e, getToken None = inl e →
        alerts (handleSubmit s user).1
        = [(text_of "Registration Failed",
            or_else (message_of e)
              (text_of "An error occurred during registration. Please try again."))]
        ∧ fetches (handleSubmit s user).1 = [])
  ∧ (∀ first e, getToken None = inr first → has_token first = false →
       getToken (Some (text_of "default")) = inl e →
       alerts (handleSubmit s user).1 = [missing]
       ∧ fetches (handleSubmit s user).1 = [])
  ∧ (∀ first second, getToken None = inr first → has_token first = false →
       getToken (Some (text_of "default")) = inr second → has_token second = false →
       alerts (handleSubmit s user).1 = [missing]
       ∧ fetches (handleSubmit s user).1 = []).
Proof.
  intros H Hvalid Hsub Huser. simpl.
  assert (Hnone : user ≠ None) by (by destruct Huser as [? ->]).
  clear Huser. split; [| split].
  - intros e He. revert Hvalid Hsub Hnone.
    submit s user H; simpl; intros; same_answer; done.
  - intros first e He Hfirst Het. revert Hvalid Hsub Hnone.
    submit s user H; simpl; intros; same_answer; done.
  - intros first second He Hfirst Het Hsecond. revert Hvalid Hsub Hnone.
    submit s user H; simpl; intros; same_answer; done.
Qed.

(** X18: the default template is asked for exactly when the plain
    request gave no token. *)
Theorem template_only_as_fallback s user first :
  complete (formData s) →
  (validateForm s).2 = inr true →
  isSubmitting s = false →
  is_Some user →
  getToken None = inr first →
  GetToken (Some (text_of "default")) ∈ (handleSubmit s user).1
  ↔ has_token first = false.
Proof.
  intros H Hvalid Hsub Huser He.
  assert (Hnone : user ≠ None) by (by destruct Huser as [? ->]).
  clear Huser. revert Hvalid Hsub Hnone.
  destruct (has_token first) eqn:Hfirst.
  - submit s user H; simpl; intros; same_answer; try done; split; try done;
      intros Hin; pick Hin; by vm_compute in Hin.
  - submit s user H; simpl; intros; same_answer; try done; split; try done;
      intros _; repeat first [apply list_elem_of_here | apply list_elem_of_further].
Qed.

(** The only updates a run asks for are the errors of the validation
    and values for [isSubmitting]. *)
Lemma handleSubmit_updates s user u :
  complete (formData s) →
  u ∈ state_updates (handleSubmit s user).1 →
  (∃ newErrors, u = SetErrors newErrors
                ∧ (validateForm s).1 = [SetState (SetErrors newErrors)])
  ∨ ∃ b, u = SetIsSubmitting b.
Proof.
  intros H. submit s user H; simpl; intros Hin; pick Hin; simplify_eq; eauto.
Qed.

Lemma validateForm_plain s newErrors :
  complete (formData s) →
  (validateForm s).1 = [SetState (SetErrors newErrors)] →
  plain_errors newErrors.
Proof.
  intros H Hv.
  destruct (payload_run _ H) as (n & e & c & _ & _ & _ & Hn & He & Hc & _).
  destruct (validateForm_run s n e c Hn He Hc) as (m & Hrun & Hname & Hemail & Hcollege & Hrest).
  rewrite Hrun in Hv. simplify_eq/=.
  intros field message Hlook. unfold required_fields, validation_messages.
  destruct (decide (field = "name")) as [-> | ?].
  { rewrite Hname in Hlook. destruct (nonempty (trim n)); simplify_eq.
    split; by repeat first [apply list_elem_of_here | apply list_elem_of_further]. }
  destruct (decide (field = "email")) as [-> | ?].
  { rewrite Hemail in Hlook.
    destruct (nonempty (trim e)), (email_test e); simplify_eq/=;
      split; by repeat first [apply list_elem_of_here | apply list_elem_of_further]. }
  destruct (decide (field = "collegeName")) as [-> | ?].
  { rewrite Hcollege in Hlook. destruct (nonempty (trim c)); simplify_eq.
    split; by repeat first [apply list_elem_of_here | apply list_elem_of_further]. }
  rewrite Hrest in Hlook; [done |].
  intros Hin. repeat (apply elem_of_cons in Hin as [-> | Hin]; [done |]).
  by apply elem_of_nil in Hin.
Qed.

(** X19: the body of a request that went through validation: the email
    is the text as typed, and it matches the pattern; name and college
    name are not empty. *)
Theorem valid_form_payload s :
  complete (formData s) →
  (validateForm s).2 = inr true →
  ∃ body,
    payload (formData s) = ([], inr body)
    ∧ formData s !! "email" = Some (p_email body)
    ∧ email_test (p_email body) = true
    ∧ nonempty (p_name body) = true
    ∧ nonempty (p_collegeName body) = true.
Proof.
  intros H Hvalid.
  destruct (payload_run _ H) as (n & e & c & p & y & g & Hn & He & Hc & _ & _ & _ & Hp).
  destruct (proj1 (validateForm_valid_iff s n e c Hn He Hc) Hvalid) as (Hn' & He' & Hc').
  destruct (email_test_trim e He') as [Htrim _].
  eexists. split; [exact Hp |]. simpl. by rewrite Htrim.
Qed.

(** X20: no member of a request body starts or ends with white space,
    and an optional member that is blank is left out rather than sent
    empty. *)
Theorem payload_members_are_trimmed fd log body :
  payload fd = (log, inr body) →
  (∀ member c,
     member ∈ [Some (p_name body); Some (p_email body); Some (p_collegeName body);
               p_phoneNumber body; p_year body; p_gender body] →
     (member ≫= head) = Some c ∨ (member ≫= last) = Some c →
     is_whitespace c = false)
  ∧ Some [] ∉ [p_phoneNumber body; p_year body; p_gender body].
Proof.
  unfold payload, read_field.
  destruct (fd !! "name") as [n|]; [| done].
  destruct (fd !! "email") as [e|]; [| done].
  destruct (fd !! "collegeName") as [c|]; [| done].
  destruct (fd !! "phoneNumber") as [p|]; [| done].
  destruct (fd !! "year") as [y|]; [| done].
  destruct (fd !! "gender") as [g|]; [| done].
  simpl. intros [= <- <-]. simpl.
  assert (Hopt : ∀ x t, or_undefined (trim x) = Some t → t = trim x ∧ t ≠ []).
  { intros x t. unfold or_undefined. destruct (trim x); simpl; [done |].
    by intros [= <-]. }
  split.
  - intros member ch Hin Hends.
    repeat (apply elem_of_cons in Hin as [-> | Hin];
            [first [by eapply trim_ends
                   | destruct (or_undefined (trim _)) as [t|] eqn:Ht;
                     [apply Hopt in Ht as [-> _]; by eapply trim_ends
                     | by destruct Hends]] |]).
    by apply elem_of_nil in Hin.
  - intros Hin.
    repeat (apply elem_of_cons in Hin as [Hin | Hin];
            [symmetry in Hin; by apply Hopt in Hin as [_ ?] |]).
    by apply elem_of_nil in Hin.
Qed.

Transparent text_of.

End Submit.

(** ** The states the screen goes through *)

Section Reachability.

Import RegisterUserScreen.

Implicit Types (u : Update).

Ltac listed := by repeat first [apply list_elem_of_here | apply list_elem_of_further].

Lemma well_formed_complete s : well_formed s → complete (formData s).
Proof.
  intros (Hdom & _) field Hin. apply elem_of_dom. rewrite Hdom.
  by apply elem_of_list_to_set.
Qed.

Lemma initial_well_formed user : well_formed (initial_state user).
Proof.
  unfold well_formed, initial_state, initial_formData. simpl.
  split; [| split; [| split]].
  - rewrite !dom_insert_L, dom_empty_L. unfold form_fields. set_solver.
  - exists []. split; [done | apply list_elem_of_here].
  - exists []. split; [done | apply list_elem_of_here].
  - intros field message. by rewrite lookup_empty.
Qed.

Lemma expected_update_well_formed s u :
  well_formed s → expected_update u → well_formed (apply_update s u).
Proof.
  intros (Hdom & (g & Hg & Hgin) & (y & Hy & Hyin) & Herr) Hu.
  destruct u as [field value | newErrors | field | b | b | b];
    unfold well_formed; simpl; simpl in Hu;
    try (split; [done | split; [eauto | split; [eauto | done]]]).
  - assert (Hfield : field ∈ form_fields).
    { unfold form_fields. destruct Hu as [Hu | [[-> _] | [-> _]]]; [| listed..].
      repeat (apply elem_of_cons in Hu as [-> | Hu]; [listed |]).
      by apply elem_of_nil in Hu. }
    split; [| split; [| split; [| done]]].
    + rewrite dom_insert_L, Hdom.
      assert (Hin : field ∈ (list_to_set form_fields : gset string))
        by (by apply elem_of_list_to_set).
      by apply subseteq_union_1_L, singleton_subseteq_l.
    + destruct (decide (field = "gender")) as [-> | Hne].
      * exists value. rewrite lookup_insert_eq. split; [done |].
        destruct Hu as [Hu | [[_ Hu] | [Hu _]]]; [| by apply list_elem_of_further | done].
        repeat (apply elem_of_cons in Hu as [Hu | Hu]; [done |]).
        by apply elem_of_nil in Hu.
      * exists g. by rewrite lookup_insert_ne.
    + destruct (decide (field = "year")) as [-> | Hne].
      * exists value. rewrite lookup_insert_eq. split; [done |].
        destruct Hu as [Hu | [[Hu _] | [_ Hu]]]; [| done | by apply list_elem_of_further].
        repeat (apply elem_of_cons in Hu as [Hu | Hu]; [done |]).
        by apply elem_of_nil in Hu.
      * exists y. by rewrite lookup_insert_ne.
  - split; [done |]. split; [eauto |]. split; [eauto |].
    intros f m Hfm. apply lookup_delete_Some in Hfm as [_ Hfm]. by apply Herr.
Qed.

Lemma expected_updates_well_formed us s :
  Forall expected_update us → well_formed s → well_formed (apply_updates us s).
Proof.
  unfold apply_updates. revert s. induction us as [|u us IH]; [done |].
  intros s [Hu Hus]%Forall_cons Hs. simpl. apply IH; [done |].
  by apply expected_update_well_formed.
Qed.

Lemma updateField_expected s field value :
  expected_update (AssignField field value) →
  Forall expected_update (updateField s field value).
Proof.
  intros H. unfold updateField. apply Forall_cons. split; [done |].
  destruct (errors s !! field) as [m|]; [destruct (nonempty m) |]; by repeat constructor.
Qed.

Lemma on_action_expected s a : offered a → Forall expected_update (on_action s a).
Proof.
  destruct a as [v | v | v | v | | | option | | | option];
    unfold on_action, offered; intros Ha.
  1-4: apply updateField_expected; simpl; left; listed.
  - destruct (isSubmitting s); by repeat constructor.
  - by repeat constructor.
  - apply Forall_app. split; [| by repeat constructor].
    apply updateField_expected. simpl. auto.
  - destruct (isSubmitting s); by repeat constructor.
  - by repeat constructor.
  - apply Forall_app. split; [| by repeat constructor].
    apply updateField_expected. simpl. auto.
Qed.

Lemma reachable_well_formed s : reachable s → well_formed s.
Proof.
  induction 1 as [user | snapshot s a _ _ _ IHs Ha
                 | outside snapshot user s u _ IHsnap _ IHs Hu].
  - apply initial_well_formed.
  - by apply expected_updates_well_formed; [apply on_action_expected |].
  - apply expected_update_well_formed; [done |].
    pose proof (well_formed_complete _ IHsnap) as Hc.
    destruct (handleSubmit_updates _ _ _ Hc Hu) as [(newErrors & -> & Hv) | [b ->]];
      [| done].
    simpl. by eapply validateForm_plain.
Qed.

(** X21: the form always has its six members, and no others: every
    assignment of the screen goes to one of them.  So the fields that
    [validateForm] and the request body read are never [undefined]. *)
Theorem form_keeps_its_fields s field :
  reachable s → is_Some (formData s !! field) ↔ field ∈ form_fields.
Proof.
  intros (Hdom & _)%reachable_well_formed.
  rewrite <- elem_of_dom, Hdom. apply elem_of_list_to_set.
Qed.

(** X22: [gender] and [year] only ever hold the empty string or one of
    the options of their dropdown. *)
Theorem dropdown_fields_hold_options s :
  reachable s →
  (∃ gender, formData s !! "gender" = Some gender ∧ gender ∈ [] :: GENDER_OPTIONS)
  ∧ (∃ year, formData s !! "year" = Some year ∧ year ∈ [] :: YEAR_OPTIONS).
Proof. by intros (_ & Hg & Hy & _)%reachable_well_formed. Qed.

(** X23: the errors on screen are always errors of a validation: they
    belong to [name], [email] or [collegeName] and carry one of the
    four messages of [validateForm]. *)
Theorem errors_come_from_validation s field message :
  reachable s →
  errors s !! field = Some message →
  field ∈ required_fields ∧ message ∈ validation_messages.
Proof. intros (_ & _ & _ & Herr)%reachable_well_formed. apply Herr. Qed.

(** X24: in any state of the screen a run of [handleSubmit] ends
    normally, whatever the outside world answers: no rejection is left
    unhandled. *)
Theorem handleSubmit_settles (outside : Outside) s user :
  reachable s → (handleSubmit s user).2 = inr tt.
Proof.
  intros H%reachable_well_formed%well_formed_complete.
  by apply handleSubmit_never_rejects.
Qed.

(** X25: [updateField] in a render of the current state assigns the
    field and removes its error, and that is all: the other fields and
    errors stay, and the new value is not validated, so the error goes
    even when the value is as wrong as before. *)
Theorem updateField_assigns_and_clears s field value :
  reachable s →
  apply_updates (updateField s field value) s
  = mkState (<[field := value]> (formData s)) (delete field (errors s))
      (isSubmitting s) (genderDropdownVisible s) (yearDropdownVisible s).
Proof.
  intros (_ & _ & _ & Herr)%reachable_well_formed. unfold updateField, apply_updates.
  destruct (errors s !! field) as [message|] eqn:He; simpl.
  - destruct (Herr _ _ He) as [_ Hm].
    assert (nonempty message = true) as ->; [| done].
    unfold validation_messages in Hm.
    repeat (apply elem_of_cons in Hm as [-> | Hm]; [done |]).
    by apply elem_of_nil in Hm.
  - by rewrite delete_id.
Qed.

Lemma trim_option_id option :
  option ∈ GENDER_OPTIONS ++ YEAR_OPTIONS →
  or_undefined (trim option) = Some option.
Proof.
  intros Hin. repeat (apply elem_of_cons in Hin as [-> | Hin]; [by vm_compute |]).
  by apply elem_of_nil in Hin.
Qed.

(** X26: what a request says about gender and year: the member is left
    out, or it is one of the options of the dropdown (for gender, the
    three values of the backend's enumeration). *)
Theorem payload_gender_and_year s :
  reachable s →
  ∃ body,
    payload (formData s) = ([], inr body)
    ∧ p_gender body ∈ None :: (Some <$> GENDER_OPTIONS)
    ∧ p_year body ∈ None :: (Some <$> YEAR_OPTIONS).
Proof.
  intros H. pose proof (reachable_well_formed s H) as (Hdom & Hg & Hy & Herr).
  destruct (payload_run (formData s)) as (n & e & c & p & y & g & _ & _ & _ & _ & Hy' & Hg' & Hp).
  { by apply well_formed_complete. }
  destruct Hg as (g' & Hg'' & Hgin). destruct Hy as (y' & Hy'' & Hyin).
  simplify_eq. eexists. split; [exact Hp |]. simpl. split.
  - apply elem_of_cons in Hgin as [-> | Hgin]; [apply list_elem_of_here |].
    rewrite trim_option_id by (apply elem_of_app; by left).
    repeat (apply elem_of_cons in Hgin as [-> | Hgin]; [listed |]).
    by apply elem_of_nil in Hgin.
  - apply elem_of_cons in Hyin as [-> | Hyin]; [apply list_elem_of_here |].
    rewrite trim_option_id by (apply elem_of_app; by right).
    repeat (apply elem_of_cons in Hyin as [-> | Hyin]; [listed |]).
    by apply elem_of_nil in Hyin.
Qed.

End Reachability.

(** ** The further properties of the uploader at sample inputs *)

Section UploadSamples.

Import InMemoryAzure UploadSample.

Lemma numeric_name_log :
  invocation_log photo numeric_name w0
  = [EnvRead AZURE_STORAGE_CONNECTION;
     EnvRead AZURE_STORAGE_CONNECTION;
     SdkCall (FromConnectionString (VString endpoint)) None;
     SdkCall (GetContainerClient endpoint "snapmap-blob") None;
     SdkCall (CreateIfNotExists (Build_Container endpoint "snapmap-blob")
                {| access := "blob" |}) None;
     SdkCall (GetBlockBlobClient (Build_Container endpoint "snapmap-blob")
                numeric_name) (Some InvalidBlobName)].
Proof. reflexivity. Qed.

Lemma create_down_log :
  invocation_log photo photo_name w_create_down
  = [EnvRead AZURE_STORAGE_CONNECTION;
     EnvRead AZURE_STORAGE_CONNECTION;
     SdkCall (FromConnectionString (VString endpoint)) None;
     SdkCall (GetContainerClient endpoint "snapmap-blob") None;
     SdkCall (CreateIfNotExists (Build_Container endpoint "snapmap-blob")
                {| access := "blob" |}) (Some ServiceUnavailable)].
Proof. reflexivity. Qed.

Lemma constructor_failure_witness :
  (uploadToAzure photo numeric_name w0).1 = Abrupt (ThrownBySdk InvalidBlobName)
  ∧ (∃ before,
       invocation_log photo numeric_name w0
       = before ++ [SdkCall (GetBlockBlobClient (Build_Container endpoint "snapmap-blob")
                               numeric_name) (Some InvalidBlobName)])
  ∧ (kind (GetBlockBlobClient (Build_Container endpoint "snapmap-blob") numeric_name)
       ≠ KGetBlockBlobClient →
     service (uploadToAzure photo numeric_name w0).2 = service w0
     ∧ attempts KCreateIfNotExists (invocation_log photo numeric_name w0) = 0
     ∧ attempts KUploadData (invocation_log photo numeric_name w0) = 0).
Proof.
  apply (constructor_failure_propagates (sdk := in_memory_sdk) photo numeric_name w0).
  - reflexivity.
  - rewrite numeric_name_log. do 5 apply list_elem_of_further. apply list_elem_of_here.
Defined.

Lemma failed_create_witness :
  attempts KGetBlockBlobClient (invocation_log photo photo_name w_create_down) = 0
  ∧ attempts KUploadData (invocation_log photo photo_name w_create_down) = 0
  ∧ service (uploadToAzure photo photo_name w_create_down).2
    = (createIfNotExists (Build_Container endpoint "snapmap-blob")
         {| access := "blob" |} (service w_create_down)).2.
Proof.
  apply (failed_create_prevents_upload (sdk := in_memory_sdk)
           photo photo_name w_create_down _ _ ServiceUnavailable).
  rewrite create_down_log. do 4 apply list_elem_of_further. apply list_elem_of_here.
Defined.

Lemma empty_buffer_witness :
  ∃ r after,
    invocation_log (VBuffer []) photo_name w0
    = EnvRead AZURE_STORAGE_CONNECTION :: EnvRead AZURE_STORAGE_CONNECTION
      :: SdkCall (FromConnectionString (connection_string w0)) r :: after.
Proof. apply any_buffer_reaches_the_sdk; reflexivity. Defined.

End UploadSamples.

(** ** The registration screen at sample inputs *)

Section SignupSamples.

Import RegisterUserScreen SignupSample.

Lemma filled_reachable : reachable filled.
Proof. apply (reach_action opened opened); [apply reach_initial.. | exact I]. Qed.

Lemma padded_reachable : reachable padded.
Proof. apply (reach_action filled filled); [apply filled_reachable.. | exact I]. Qed.

Lemma filled_complete : complete (formData filled).
Proof. apply well_formed_complete, reachable_well_formed, filled_reachable. Qed.

Lemma filled_is_valid : (validateForm filled).2 = inr true.
Proof. vm_compute. reflexivity. Qed.

Lemma refused_fetch :
  Fetch signup_request ∈ (handleSubmit (outside := refusing) filled (Some ada)).1.
Proof. apply (list_elem_of_lookup_2 _ 7). vm_compute. reflexivity. Qed.

Lemma email_test_necessary_witness :
  forallb (λ c, negb (is_whitespace c)) (text_of "ada@example.org") = true
  ∧ count_occ N.eq_dec (text_of "ada@example.org") 64%N = 1
  ∧ (5 ≤ length (text_of "ada@example.org"))%nat.
Proof. apply email_test_necessary. reflexivity. Defined.

Lemma validateForm_accepts_witness :
  (validateForm filled).2 = inr true
  ↔ nonempty (trim (text_of "Ada Lovelace")) = true
    ∧ email_test (text_of "ada@example.org") = true
    ∧ nonempty (trim (text_of "Trinity College")) = true.
Proof. apply validateForm_accepts_iff; reflexivity. Defined.

Lemma padded_email_witness :
  trim ([32%N] ++ text_of "ada@example.org" ++ []) = text_of "ada@example.org"
  ∧ (validateForm padded).2 = inr false
  ∧ ∃ newErrors,
      (validateForm padded).1 = [SetState (SetErrors newErrors)]
      ∧ newErrors !! "email" = Some (text_of "Please enter a valid email").
Proof.
  apply (padded_email_is_refused padded
           (text_of "Ada Lovelace") (text_of "ada@example.org")
           (text_of "Trinity College") [32%N] []);
    first [reflexivity | discriminate].
Defined.

Lemma handleSubmit_state_witness :
  ∃ newErrors valid,
    validateForm filled = ([SetState (SetErrors newErrors)], inr valid)
    ∧ apply_updates
        (state_updates (handleSubmit (outside := accepting) filled (Some ada)).1) filled
      = mkState (formData filled) newErrors (isSubmitting filled)
          (genderDropdownVisible filled) (yearDropdownVisible filled)
    ∧ (SetIsSubmitting true
         ∈ state_updates (handleSubmit (outside := accepting) filled (Some ada)).1 →
       last (state_updates (handleSubmit (outside := accepting) filled (Some ada)).1)
       = Some (SetIsSubmitting false)).
Proof. apply handleSubmit_state. exact filled_complete. Defined.

Lemma handleSubmit_alerts_witness :
  (length (alerts (handleSubmit (outside := clerk_down) filled (Some ada)).1) ≤ 1)%nat
  ∧ (alerts (handleSubmit (outside := clerk_down) filled (Some ada)).1 = []
     ↔ (validateForm filled).2 = inr true ∧ isSubmitting filled = true).
Proof. apply handleSubmit_alerts. exact filled_complete. Defined.

Lemma handleSubmit_guards_witness :
  (∀ ev, ev ∈ (handleSubmit (outside := accepting) filled (Some ada)).1 →
         is_external ev = true →
         (validateForm filled).2 = inr true ∧ isSubmitting filled = false
         ∧ is_Some (Some ada))
  ∧ (∀ request,
       Fetch request ∈ (handleSubmit (outside := accepting) filled (Some ada)).1 →
       fetches (handleSubmit (outside := accepting) filled (Some ada)).1 = [request]
       ∧ req_url request = signup_url (outside := accepting)
       ∧ req_method request = text_of "POST"
       ∧ payload (formData filled) = ([], inr (req_body request))
       ∧ ∃ token,
           nonempty token = true
           ∧ req_authorization request = text_of "Bearer " ++ token
           ∧ (getToken (Outside := accepting) None = inr (Some token)
              ∨ (∃ first,
                   getToken (Outside := accepting) None = inr first
                   ∧ has_token first = false
                   ∧ getToken (Outside := accepting) (Some (text_of "default"))
                     = inr (Some token)))).
Proof. apply handleSubmit_guards. exact filled_complete. Defined.

Lemma success_witness :
  (text_of "Success", text_of "Registration completed successfully!")
    ∈ alerts (handleSubmit (outside := accepting) filled (Some ada)).1
  ↔ ∃ request response,
      Fetch request ∈ (handleSubmit (outside := accepting) filled (Some ada)).1
      ∧ fetch (Outside := accepting) request = inr response ∧ ok response = true.
Proof. apply success_iff_ok. exact filled_complete. Defined.

Lemma refused_registration_witness :
  ∃ shown,
    alerts (handleSubmit (outside := refusing) filled (Some ada)).1
    = [(text_of "Registration Failed",
        or_else shown
          (text_of "An error occurred during registration. Please try again."))]
    ∧ (∀ body j message,
         response_text conflict = inr body → nonempty body = true →
         JSON_parse (Outside := refusing) body = inr j →
         data_message j = inr (Some message) →
         shown = message)
    ∧ (∀ body j,
         response_text conflict = inr body → nonempty body = true →
         JSON_parse (Outside := refusing) body = inr j → data_message j = inr None →
         shown = text_of "Registration failed with status "
                 ++ number_text (status conflict))
    ∧ (response_text conflict = inr [] →
       shown = text_of "Registration failed with status "
               ++ number_text (status conflict))
    ∧ (∀ body e,
         response_text conflict = inr body → nonempty body = true →
         JSON_parse (Outside := refusing) body = inl e →
         shown = text_of "Failed to parse server response")
    ∧ (∀ e, response_text conflict = inl e →
            shown = text_of "Failed to parse server response").
Proof.
  apply (refused_registration_message (outside := refusing) filled (Some ada)
           signup_request conflict).
  - exact filled_complete.
  - exact refused_fetch.
  - reflexivity.
  - reflexivity.
Defined.

Lemma token_failures_witness :
  (∀ e, getToken (Outside := tokenless) None = inl e →
        alerts (handleSubmit (outside := tokenless) filled (Some ada)).1
        = [(text_of "Registration Failed",
            or_else (message_of (outside := tokenless) e)
              (text_of "An error occurred during registration. Please try again."))]
        ∧ fetches (handleSubmit (outside := tokenless) filled (Some ada)).1 = [])
  ∧ (∀ first e,
       getToken (Outside := tokenless) None = inr first → has_token first = false →
       getToken (Outside := tokenless) (Some (text_of "default")) = inl e →
       alerts (handleSubmit (outside := tokenless) filled (Some ada)).1
       = [(text_of "Error",
           text_of "Authentication token not available. Please sign in again.")]
       ∧ fetches (handleSubmit (outside := tokenless) filled (Some ada)).1 = [])
  ∧ (∀ first second,
       getToken (Outside := tokenless) None = inr first → has_token first = false →
       getToken (Outside := tokenless) (Some (text_of "default")) = inr second →
       has_token second = false →
       alerts (handleSubmit (outside := tokenless) filled (Some ada)).1
       = [(text_of "Error",
           text_of "Authentication token not available. Please sign in again.")]
       ∧ fetches (handleSubmit (outside := tokenless) filled (Some ada)).1 = []).
Proof.
  apply (token_failures (outside := tokenless) filled (Some ada)).
  - exact filled_complete.
  - exact filled_is_valid.
  - reflexivity.
  - by eexists.
Defined.

Lemma template_fallback_witness :
  GetToken (Some (text_of "default"))
    ∈ (handleSubmit (outside := tokenless) filled (Some ada)).1
  ↔ has_token None = false.
Proof.
  apply (template_only_as_fallback (outside := tokenless) filled (Some ada) None).
  - exact filled_complete.
  - exact filled_is_valid.
  - reflexivity.
  - by eexists.
  - reflexivity.
Defined.

Lemma valid_form_payload_witness :
  ∃ body,
    payload (formData filled) = ([], inr body)
    ∧ formData filled !! "email" = Some (p_email body)
    ∧ email_test (p_email body) = true
    ∧ nonempty (p_name body) = true
    ∧ nonempty (p_collegeName body) = true.
Proof. apply valid_form_payload; [exact filled_complete | exact filled_is_valid]. Defined.

Lemma payload_trimmed_witness :
  (∀ member c,
     member ∈ [Some (p_name (req_body signup_request));
               Some (p_email (req_body signup_request));
               Some (p_collegeName (req_body signup_request));
               p_phoneNumber (req_body signup_request);
               p_year (req_body signup_request);
               p_gender (req_body signup_request)] →
     (member ≫= head) = Some c ∨ (member ≫= last) = Some c →
     is_whitespace c = false)
  ∧ Some [] ∉ [p_phoneNumber (req_body signup_request);
               p_year (req_body signup_request);
               p_gender (req_body signup_request)].
Proof.
  apply (payload_members_are_trimmed (formData padded) []).
  vm_compute. reflexivity.
Defined.

Lemma form_fields_witness :
  is_Some (formData filled !! "email") ↔ "email" ∈ form_fields.
Proof. apply form_keeps_its_fields. exact filled_reachable. Defined.

Lemma dropdown_fields_witness :
  (∃ gender, formData filled !! "gender" = Some gender ∧ gender ∈ [] :: GENDER_OPTIONS)
  ∧ (∃ year, formData filled !! "year" = Some year ∧ year ∈ [] :: YEAR_OPTIONS).
Proof. apply dropdown_fields_hold_options. exact filled_reachable. Defined.

Lemma unfinished_reachable : reachable unfinished.
Proof.
  apply (reach_submit accepting opened (Some ada) opened);
    [apply reach_initial.. |].
  apply (list_elem_of_lookup_2 _ 0). vm_compute. reflexivity.
Qed.

Lemma errors_witness :
  "collegeName" ∈ required_fields
  ∧ text_of "College name is required" ∈ validation_messages.
Proof.
  apply (errors_come_from_validation unfinished).
  - exact unfinished_reachable.
  - reflexivity.
Defined.

Lemma handleSubmit_settles_witness :
  (handleSubmit (outside := clerk_down) filled (Some ada)).2 = inr tt.
Proof. apply handleSubmit_settles. exact filled_reachable. Defined.

Lemma updateField_witness :
  apply_updates (updateField unfinished "collegeName" (text_of "T")) unfinished
  = mkState (<["collegeName" := text_of "T"]> (formData unfinished))
      (delete "collegeName" (errors unfinished))
      (isSubmitting unfinished) (genderDropdownVisible unfinished)
      (yearDropdownVisible unfinished).
Proof. apply updateField_assigns_and_clears. exact unfinished_reachable. Defined.

Lemma payload_gender_and_year_witness :
  ∃ body,
    payload (formData filled) = ([], inr body)
    ∧ p_gender body ∈ None :: (Some <$> GENDER_OPTIONS)
    ∧ p_year body ∈ None :: (Some <$> YEAR_OPTIONS).
Proof. apply payload_gender_and_year. exact filled_reachable. Defined.

End SignupSamples.
